(** * Fake-news detection pipeline: the classification glue and its contracts

    A shallow embedding of the core of the repository
    ([src/fake_news/preprocess.py], [data.py] and [model.py]) and the
    properties its specification states about it.

    Python values are modelled as follows.
    - [str] is a sequence of Unicode code points ([list N]); string
      literals of the source are written [u "..."].
    - [float] is an IEEE 754 binary64 number, Rocq's primitive [float].
    - An exception is a value of [exception]; a function that may raise
      returns a [result].
    - Library calls whose code is not part of the repository (pandas'
      [read_csv], scikit-learn's [train_test_split], joblib's [dump] and
      [load], the builtin [int] on strings) are operations of a type
      class: the embedding is parametric in them. *)

From Stdlib Require Import ZArith NArith List Floats Lia DecimalString.
From stdpp Require Import base option list gmap strings.

Local Open Scope Z_scope.

(** ** Python values *)

Module py.

(** A [str]: its code points. *)
Definition str : Type := list N.

(** The code points of a literal. *)
Definition u (s : string) : str :=
  map Ascii.N_of_ascii (String.list_ascii_of_string s).

Definition path : Type := list str.

(** Why a [ValueError] was raised: Python tells them apart by message. *)
Inductive value_error : Type :=
| ExpectedColumns (text_col label_col : str) (* data.py, load_dataset_csv *)
| InvalidLiteral (v : str)       (* int("x"): invalid literal for int() *)
| CannotConvertNaN               (* int(float("nan")) *)
| NonFiniteToInteger             (* pandas: cast of NaN or inf to int64 *)
| InvalidParameter (name : string) (* scikit-learn parameter validation *)
| MinimumSamples (found required : nat) (* scikit-learn input validation *)
| OtherValueError (msg : string).

Inductive exception : Type :=
| ValueError (why : value_error)
| OverflowError                  (* Python int too large for int64 *)
| KeyError (key : str)
| AttributeError (attr : string)
| IndexError
| FileNotFoundError (p : path)
| FileExistsError (p : path)
| NotADirectoryError (p : path)
| IsADirectoryError (p : path)
| UnpicklingError
| OtherError (msg : string).

Inductive result (A : Type) : Type :=
| Ok (a : A)
| Err (e : exception).
Arguments Ok {A} a.
Arguments Err {A} e.

#[export] Instance result_ret : MRet result := fun _ a => Ok a.
#[export] Instance result_bind : MBind result := fun _ _ f m =>
  match m with Ok a => f a | Err e => Err e end.
#[export] Instance result_fmap : FMap result := fun _ _ f m =>
  match m with Ok a => Ok (f a) | Err e => Err e end.

Definition raised {A} (m : result A) : Prop := exists e, m = Err e.

(** [Py_UNICODE_ISSPACE]: the characters [str.strip()] removes and the
    regular expression class [\s] matches on [str] patterns. *)
Definition isspace (c : N) : bool :=
  (((9 <=? c) && (c <=? 13)) || ((28 <=? c) && (c <=? 32))
   || (c =? 133) || (c =? 160) || (c =? 5760)
   || ((8192 <=? c) && (c <=? 8202))
   || (c =? 8232) || (c =? 8233) || (c =? 8239) || (c =? 8287)
   || (c =? 12288))%N.

(** The character [" "]. *)
Definition SPACE : N := 32%N.

(** [s.lstrip()], [s.rstrip()] and [s.strip()]. *)
Fixpoint lstrip (s : str) : str :=
  match s with
  | [] => []
  | c :: r => if isspace c then lstrip r else s
  end.

Definition rstrip (s : str) : str := rev (lstrip (rev s)).

Definition strip (s : str) : str := rstrip (lstrip s).

End py.
Import py.

(** ** preprocess.py *)

Module preprocess.

(** [_whitespace_re.sub(" ", text)] with [_whitespace_re = \s+]: a left
    to right scan; [in_run] says that the character before belongs to a
    match of [\s+] whose replacement was already written. *)
Fixpoint whitespace_re_sub_from (in_run : bool) (text : str) : str :=
  match text with
  | [] => []
  | c :: r =>
      if isspace c
      then (if in_run then whitespace_re_sub_from true r
            else SPACE :: whitespace_re_sub_from true r)
      else c :: whitespace_re_sub_from false r
  end.

Definition whitespace_re_sub (text : str) : str :=
  whitespace_re_sub_from false text.

Definition normalize_whitespace (text : str) : str :=
  let text := strip text in
  let text := whitespace_re_sub text in
  text.

Definition preprocess_texts (texts : list str) : list str :=
  map normalize_whitespace texts.

(** The shape of a normalised, non-empty text: it starts and ends with a
    character that is not whitespace, and whitespace occurs only as a
    single [" "] between two such characters. *)
Inductive single_spaced : str -> Prop :=
| ss_one c : isspace c = false -> single_spaced [c]
| ss_cons c r : isspace c = false -> single_spaced r -> single_spaced (c :: r)
| ss_sep c r : isspace c = false -> single_spaced r ->
               single_spaced (c :: SPACE :: r).

(** [s] is empty or its last character is not whitespace. *)
Definition no_trailing_space (s : str) : Prop := isspace (List.last s 0%N) = false.

End preprocess.
Import preprocess.

(** ** data.py *)

Module data.

(** A Python object as a cell of an [object] column read from a CSV file:
    a [str], an [int], a [bool], or the missing-value marker NaN. *)
Inductive pyobject : Type :=
| PyStr (s : str)
| PyInt (z : Z)
| PyBool (b : bool)
| PyNaN.

Inductive dtype : Type := int64 | float64 | bool_ | object.

(** A [pd.Series]: its dtype and its values, in row order. *)
Inductive Series : Type :=
| SInt64 (vs : list Z)
| SFloat64 (vs : list float)
| SBool (vs : list bool)
| SObject (vs : list pyobject).

Definition Series_dtype (s : Series) : dtype :=
  match s with
  | SInt64 _ => int64
  | SFloat64 _ => float64
  | SBool _ => bool_
  | SObject _ => object
  end.

Definition Series_len (s : Series) : nat :=
  match s with
  | SInt64 vs => length vs
  | SFloat64 vs => length vs
  | SBool vs => length vs
  | SObject vs => length vs
  end.

(** A [pd.DataFrame]: its columns, in order, by name. *)
Definition DataFrame : Type := list (str * Series).

Definition columns (df : DataFrame) : list str := map fst df.

Record Dataset : Type := {
  X_train : Series;
  X_val : Series;
  y_train : Series;
  y_val : Series;
}.

(** The library operations [data.py] calls. *)
Class Pandas : Type := {
  (** [pd.read_csv(csv_path)] *)
  read_csv : path -> result DataFrame;
  (** the builtin [int(s)] on a [str]; [None] when it raises ValueError *)
  int_of_str : str -> option Z;
  (** the cast of a float64 to int64; [None] for NaN and the infinities *)
  float_to_int64 : float -> option Z;
  (** [str(x)] on a float *)
  float_to_str : float -> str;
}.

Class Sklearn : Type := {
  (** [train_test_split(X, y, test_size=, stratify=, random_state=)] *)
  train_test_split :
    Series -> Series -> float -> Series -> Z ->
    result (Series * Series * Series * Series);
}.

(** [test_size] as a proportion: strictly between 0 and 1. *)
Definition in_open_unit_interval (v : float) : bool :=
  PrimFloat.ltb 0 v && PrimFloat.ltb v 1.

(** scikit-learn validates [test_size]: a float outside (0, 1) is
    rejected with a ValueError. *)
Definition validates_test_size `{Sklearn} : Prop :=
  forall X y v stratify random_state,
    in_open_unit_interval v = false ->
    train_test_split X y v stratify random_state
    = Err (ValueError (InvalidParameter "test_size")).

Section with_pandas.
Context `{Pandas}.

(** The dict literal of [_normalize_labels]. *)
Definition mapping : list (str * Z) :=
  [ (u "FAKE", 1); (u "fake", 1); (u "FALSE", 1); (u "false", 1);
    (u "REAL", 0); (u "real", 0); (u "TRUE", 0); (u "true", 0) ].

Fixpoint dict_lookup (d : list (str * Z)) (k : str) : option Z :=
  match d with
  | [] => None
  | (k', v) :: d' => if decide (k' = k) then Some v else dict_lookup d' k
  end.

(** [d.get(key, default)]: the keys of [d] are strings, so only a [str]
    can be found. *)
Definition dict_get (d : list (str * Z)) (key default : pyobject) : pyobject :=
  match key with
  | PyStr s => match dict_lookup d s with
               | Some n => PyInt n
               | None => default
               end
  | _ => default
  end.

Definition in_int64 (z : Z) : bool := (- 2 ^ 63 <=? z) && (z <? 2 ^ 63).

Definition to_int64 (z : Z) : result Z :=
  if in_int64 z then Ok z else Err OverflowError.

(** [int(v)] stored in an int64 array. *)
Definition int_of_object (v : pyobject) : result Z :=
  match v with
  | PyStr s => match int_of_str s with
               | Some z => to_int64 z
               | None => Err (ValueError (InvalidLiteral s))
               end
  | PyInt z => to_int64 z
  | PyBool b => Ok (Z.b2z b)
  | PyNaN => Err (ValueError CannotConvertNaN)
  end.

Definition int_of_float (f : float) : result Z :=
  match float_to_int64 f with
  | Some z => Ok z
  | None => Err (ValueError NonFiniteToInteger)
  end.

(** [series.astype(int)] *)
Definition astype_int (series : Series) : result Series :=
  match series with
  | SInt64 vs => Ok (SInt64 vs)
  | SBool vs => Ok (SInt64 (map Z.b2z vs))
  | SFloat64 vs => SInt64 <$> mapM int_of_float vs
  | SObject vs => SInt64 <$> mapM int_of_object vs
  end.

Definition str_of_int (z : Z) : str :=
  u (NilZero.string_of_int (Z.to_int z)).

Definition str_of_bool (b : bool) : str :=
  if b then u "True" else u "False".

Definition str_of_object (v : pyobject) : str :=
  match v with
  | PyStr s => s
  | PyInt z => str_of_int z
  | PyBool b => str_of_bool b
  | PyNaN => u "nan"
  end.

(** [series.astype(str)] *)
Definition astype_str (series : Series) : Series :=
  SObject (map PyStr
    match series with
    | SInt64 vs => map str_of_int vs
    | SFloat64 vs => map float_to_str vs
    | SBool vs => map str_of_bool vs
    | SObject vs => map str_of_object vs
    end).

Definition _normalize_labels (series : Series) : result Series :=
  match series with
  | SObject vs =>                       (* series.dtype == object *)
      astype_int (SObject (map (fun v => dict_get mapping v v) vs))
  | _ => astype_int series
  end.

(** [df[col]] *)
Fixpoint getitem (df : DataFrame) (col : str) : result Series :=
  match df with
  | [] => Err (KeyError col)
  | (name, s) :: df' => if decide (name = col) then Ok s else getitem df' col
  end.

(** [df[col] = s] *)
Fixpoint setitem (df : DataFrame) (col : str) (s : Series) : DataFrame :=
  match df with
  | [] => [(col, s)]
  | (name, s0) :: df' =>
      if decide (name = col) then (name, s) :: df'
      else (name, s0) :: setitem df' col s
  end.

(** [series.notna()] *)
Definition notna (s : Series) : list bool :=
  match s with
  | SInt64 vs => map (fun _ => true) vs
  | SFloat64 vs => map (fun f => negb (PrimFloat.is_nan f)) vs
  | SBool vs => map (fun _ => true) vs
  | SObject vs => map (fun v => match v with PyNaN => false | _ => true end) vs
  end.

(** [l[mask]] for a boolean mask. *)
Fixpoint select {A} (mask : list bool) (l : list A) : list A :=
  match mask, l with
  | b :: mask', x :: l' => if b then x :: select mask' l' else select mask' l'
  | _, _ => []
  end.

Definition Series_select (mask : list bool) (s : Series) : Series :=
  match s with
  | SInt64 vs => SInt64 (select mask vs)
  | SFloat64 vs => SFloat64 (select mask vs)
  | SBool vs => SBool (select mask vs)
  | SObject vs => SObject (select mask vs)
  end.

Definition nrows (df : DataFrame) : nat :=
  match df with
  | [] => 0%nat
  | (_, s) :: _ => Series_len s
  end.

(** The rows without a missing value in any column. *)
Definition complete_rows (df : DataFrame) : list bool :=
  foldr (fun c mask => zip_with andb (notna c.2) mask)
        (replicate (nrows df) true) df.

(** [df.dropna()] *)
Definition dropna (df : DataFrame) : DataFrame :=
  let mask := complete_rows df in
  map (fun c => (c.1, Series_select mask c.2)) df.

(** [load_dataset_csv(csv_path, text_col, label_col)].  When both
    names are the same, [df[[c, c]]] has two columns called [c] and
    [df[c]] is a frame, on which [series.dtype] raises
    AttributeError. *)
Definition load_dataset_csv (csv_path : path) (text_col label_col : str)
  : result DataFrame :=
  df ← read_csv csv_path;
  if bool_decide (text_col ∉ columns df) || bool_decide (label_col ∉ columns df)
  then Err (ValueError (ExpectedColumns text_col label_col))
  else
    X ← getitem df text_col;
    y ← getitem df label_col;
    let df := dropna [(text_col, X); (label_col, y)] in
    if decide (text_col = label_col) then Err (AttributeError "dtype")
    else
      labels ← getitem df label_col;
      labels ← _normalize_labels labels;
      let df := setitem df label_col labels in
      texts ← getitem df text_col;
      let df := setitem df text_col (astype_str texts) in
      Ok df.

Definition train_val_split `{Sklearn} (df : DataFrame)
    (text_col label_col : str) (val_size : float) (random_state : Z)
  : result Dataset :=
  X ← getitem df text_col;
  y ← getitem df label_col;
  '(X_train, X_val, y_train, y_val) ← train_test_split X y val_size y random_state;
  Ok {| X_train := X_train; X_val := X_val; y_train := y_train; y_val := y_val |}.

End with_pandas.

End data.
Import data.

(** ** model.py *)

Module model.

(** A two-dimensional [numpy] array of floats: its number of columns and
    its rows. *)
Record ndarray : Type := {
  ncols : nat;
  rows : list (list float);
}.

(** A fitted [sklearn.pipeline.Pipeline], as the inference functions use
    it: an object with a [predict_proba] method, which returns one row
    of class probabilities per text or raises. *)
Record Pipeline : Type := {
  pipeline_predict_proba : list str -> result ndarray;
}.

Definition bytes : Type := list Byte.byte.

(** The serialisation under [joblib.dump] and [joblib.load]. *)
Class Joblib : Type := {
  serialize : Pipeline -> bytes;
  (** [None] when the bytes are not a pickled object *)
  deserialize : bytes -> option Pipeline;
}.

(** The file system: what is at each path. *)
Inductive node : Type :=
| Dir
| File (content : bytes).

(** [dir / name] *)
Definition truediv (dir : path) (name : str) : path := dir ++ [name].

(** [p.exists()] *)
Definition exists_ (fs : gmap path node) (p : path) : bool :=
  bool_decide (is_Some (fs !! p)).

(** [model_dir.mkdir(parents=True, exist_ok=True)]: every missing
    directory on the way to [model_dir] is created; a file on the way
    is an error. [walked] is the part of the path already passed. *)
Fixpoint mkdir_from (walked : path) (rest : list str) (fs : gmap path node)
  : result (gmap path node) :=
  match rest with
  | [] => Ok fs
  | name :: rest' =>
      let cur := truediv walked name in
      match fs !! cur with
      | Some Dir => mkdir_from cur rest' fs
      | Some (File _) =>
          Err (match rest' with
               | [] => FileExistsError cur
               | _ => NotADirectoryError cur
               end)
      | None => mkdir_from cur rest' (<[cur := Dir]> fs)
      end
  end.

Definition mkdir (dir : path) (fs : gmap path node) : result (gmap path node) :=
  mkdir_from [] dir fs.

Section with_joblib.
Context `{Joblib}.

(** [joblib.dump(value, filename)] *)
Definition joblib_dump (value : Pipeline) (filename : path)
    (fs : gmap path node) : result (gmap path node) :=
  match fs !! filename with
  | Some Dir => Err (IsADirectoryError filename)
  | _ => Ok (<[filename := File (serialize value)]> fs)
  end.

(** [joblib.load(filename)] *)
Definition joblib_load (filename : path) (fs : gmap path node)
  : result Pipeline :=
  match fs !! filename with
  | None => Err (FileNotFoundError filename)
  | Some Dir => Err (IsADirectoryError filename)
  | Some (File content) =>
      match deserialize content with
      | Some value => Ok value
      | None => Err UnpicklingError
      end
  end.

Definition save_model (pipeline : Pipeline) (model_dir : path)
    (fs : gmap path node) : result (path * gmap path node) :=
  fs ← mkdir model_dir fs;
  let model_path := truediv model_dir (u "model.joblib") in
  fs ← joblib_dump pipeline model_path fs;
  Ok (model_path, fs).

Definition load_model (model_dir : path) (fs : gmap path node)
  : result Pipeline :=
  let model_path := truediv model_dir (u "model.joblib") in
  if negb (exists_ fs model_path)
  then Err (FileNotFoundError model_path)
  else joblib_load model_path fs.

End with_joblib.

(** [a[:, 1]] *)
Definition column_1 (a : ndarray) : result (list float) :=
  if (1 <? ncols a)%nat
  then mapM (fun row => match row !! 1%nat with
                        | Some x => Ok x
                        | None => Err IndexError
                        end) (rows a)
  else Err IndexError.

Definition predict_proba (pipeline : Pipeline) (texts : list str)
  : result (list float) :=
  let processed := preprocess_texts texts in
  (* Probability for class 1 (fake) *)
  probs ← (a ← pipeline_predict_proba pipeline processed; column_1 a);
  Ok probs.

Definition predict_label (pipeline : Pipeline) (texts : list str)
    (threshold : float) : result (list Z) :=
  probs ← predict_proba pipeline texts;
  Ok (map (fun p => if PrimFloat.leb threshold p then 1 else 0) probs).

(** Serialisation keeps what [pipeline] predicts: the object read back
    gives the same probabilities on every input. *)
Definition faithful `{Joblib} (pipeline : Pipeline) : Prop :=
  exists loaded,
    deserialize (serialize pipeline) = Some loaded /\
    forall X, pipeline_predict_proba loaded X = pipeline_predict_proba pipeline X.

(** [model_dir] can be created and the artifact written: no file stands
    on the way to [model_dir], and the artifact path is not a directory. *)
Definition writable (fs : gmap path node) (model_dir : path) : Prop :=
  (forall k content, fs !! take k model_dir <> Some (File content)) /\
  fs !! truediv model_dir (u "model.joblib") <> Some Dir.

(** An artifact file exists in [model_dir]: a regular file stands at
    the path [model.joblib] inside it. *)
Definition artifact_file (fs : gmap path node) (model_dir : path) : Prop :=
  exists content, fs !! truediv model_dir (u "model.joblib") = Some (File content).

End model.
Import model.

(** ** Concrete libraries, files and pipelines

    Instances of the library classes and small inputs, on which the
    functions above compute. *)

Module samples.

(** [int(s)] on ASCII text: optional whitespace around an optional sign
    and decimal digits, which single underscores may separate. *)
Fixpoint digits_value (acc : Z) (after_digit : bool) (s : str) : option Z :=
  match s with
  | [] => if after_digit then Some acc else None
  | c :: r =>
      if ((48 <=? c) && (c <=? 57))%N
      then digits_value (10 * acc + (Z.of_N c - 48)) true r
      else if (c =? 95)%N && after_digit then digits_value acc false r
      else None
  end.

Definition decimal_int_of_str (s : str) : option Z :=
  match strip s with
  | 43%N :: r => digits_value 0 false r
  | 45%N :: r => Z.opp <$> digits_value 0 false r
  | r => digits_value 0 false r
  end.

(** A finite float rounded toward zero. *)
Definition truncate_float (f : float) : option Z :=
  match Prim2SF f with
  | S754_zero _ => Some 0
  | S754_finite sign m e =>
      let v := if 0 <=? e then Z.pos m * 2 ^ e else Z.pos m / 2 ^ (- e) in
      Some (if sign then - v else v)
  | _ => None
  end.

(** pandas over a world in which every path holds the table [df]. *)
Definition pandas_reading (df : DataFrame) : Pandas := {|
  read_csv := fun _ => Ok df;
  int_of_str := decimal_int_of_str;
  float_to_int64 := truncate_float;
  float_to_str := fun _ => u "0.0";
|}.

(** A splitter that validates [test_size] as scikit-learn does and then
    holds out the first row. *)
Definition holdout_first : Sklearn := {|
  train_test_split := fun X y test_size stratify random_state =>
    if in_open_unit_interval test_size
    then Ok (Series_select (false :: replicate (Series_len X) true) X,
             Series_select [true] X,
             Series_select (false :: replicate (Series_len y) true) y,
             Series_select [true] y)
    else Err (ValueError (InvalidParameter "test_size"));
|}.

Definition csv_path : path := [u "data"; u "news.csv"].

Definition four_texts : Series :=
  SObject [PyStr (u "a"); PyStr (u "b"); PyStr (u "c"); PyStr (u "d")].

(** A file whose label column holds FAKE, real, TRUE, false. *)
Definition news_csv : DataFrame :=
  [ (u "text", four_texts);
    (u "label", SObject [PyStr (u "FAKE"); PyStr (u "real");
                         PyStr (u "TRUE"); PyStr (u "false")]) ].

(** A file with the capitalised spelling [Fake]. *)
Definition capitalised_csv : DataFrame :=
  [ (u "text", SObject [PyStr (u "a")]);
    (u "label", SObject [PyStr (u "Fake")]) ].

(** A file whose only unknown label stands in a row without text. *)
Definition blank_text_csv : DataFrame :=
  [ (u "text", SObject [PyNaN; PyStr (u "hello")]);
    (u "label", SObject [PyStr (u "garbage"); PyStr (u "FAKE")]) ].

(** A file with an unknown label in a complete row. *)
Definition garbage_csv : DataFrame :=
  [ (u "text", SObject [PyStr (u "hello"); PyStr (u "world")]);
    (u "label", SObject [PyStr (u "FAKE"); PyStr (u "garbage")]) ].

(** A file whose label column was read as booleans. *)
Definition boolean_csv : DataFrame :=
  [ (u "text", SObject [PyStr (u "a"); PyStr (u "b")]);
    (u "label", SBool [true; false]) ].

(** A file without a label column. *)
Definition unlabelled_csv : DataFrame :=
  [ (u "text", four_texts) ].

(** A pipeline that gives every text the probabilities (0.5, 0.5), for
    any number of texts. *)
Definition even_pipeline : Pipeline := {|
  pipeline_predict_proba := fun X =>
    Ok {| ncols := 2; rows := map (fun _ => [0.5%float; 0.5%float]) X |};
|}.

(** The same pipeline behind scikit-learn's input validation, which
    requires at least one sample: "Found array with 0 sample(s) while a
    minimum of 1 is required". *)
Definition validating_pipeline : Pipeline := {|
  pipeline_predict_proba := fun X =>
    match X with
    | [] => Err (ValueError (MinimumSamples 0 1))
    | _ => pipeline_predict_proba even_pipeline X
    end;
|}.

(** A store that holds [even_pipeline] only. *)
Definition even_joblib : Joblib := {|
  serialize := fun _ => [Byte.x80; Byte.x04];
  deserialize := fun _ => Some even_pipeline;
|}.

Definition models : path := [u "models"].

(** The threshold written [0.51] in Python: the nearest binary64. *)
Definition threshold_0_51 : float := 0x1.051eb851eb852p-1%float.

End samples.
Import samples.

(** ** Words and gaps of a text

    A one-pass reading of a text, used to state what the normaliser
    keeps and what it forgets. *)

Module words.

(** The characters of a text that are not whitespace, in order. *)
Definition non_space (s : str) : str :=
  List.filter (fun c => negb (isspace c)) s.

(** A text made of whitespace only. *)
Definition all_space (s : str) : Prop := Forall (fun c => isspace c = true) s.

(** Where a reader stands in a text: before the first word, inside or
    right after a word, or in whitespace after a word. *)
Inductive position : Type := AtStart | InWord | InGap.

Definition after_space (p : position) : position :=
  match p with
  | AtStart => AtStart
  | InWord => InGap
  | InGap => InGap
  end.

(** The words of a text with one space between them, read from
    position [p]. *)
Fixpoint squeeze (p : position) (s : str) : str :=
  match s with
  | [] => []
  | c :: r =>
      if isspace c then squeeze (after_space p) r
      else match p with
           | InGap => SPACE :: c :: squeeze InWord r
           | _ => c :: squeeze InWord r
           end
  end.

(** Where the reader stands after the text [s]. *)
Fixpoint advance (p : position) (s : str) : position :=
  match s with
  | [] => p
  | c :: r => advance (if isspace c then after_space p else InWord) r
  end.

End words.
Import words.

(** ** model.py: training *)

Module training.

(** The unfitted estimators [build_pipeline] configures. *)
Record TfidfVectorizer : Type := {
  lowercase : bool;
  stop_words : str;
  max_features : Z;
  ngram_range : Z * Z;
}.

Record LogisticRegression : Type := {
  max_iter : Z;
  n_jobs : Z;
  C : float;
}.

(** An unfitted [Pipeline([("tfidf", vectorizer), ("clf", classifier)])]. *)
Record Estimator : Type := {
  tfidf : TfidfVectorizer;
  clf : LogisticRegression;
}.

(** The scikit-learn operations [train_model] calls. *)
Class SklearnFit : Type := {
  (** [classification_report(..., output_dict=True)] *)
  Report : Type;
  (** [pipeline.fit(X, y)]: the fitted pipeline *)
  fit : Estimator -> list str -> Series -> result Pipeline;
  (** [pipeline.predict(X)] *)
  pipeline_predict : Pipeline -> list str -> result (list Z);
  classification_report : Series -> list Z -> result Report;
  accuracy_score : Series -> list Z -> result float;
}.

Record Metrics `{SklearnFit} : Type := {
  metrics_accuracy : float;
  metrics_report : Report;
}.

Definition build_pipeline (max_features : Z) (C : float) (n_jobs : Z) : Estimator :=
  let vectorizer := {|
    lowercase := true;
    stop_words := u "english";
    max_features := max_features;
    ngram_range := (1, 2);
  |} in
  let classifier := {| max_iter := 200; n_jobs := n_jobs; C := C |} in
  {| tfidf := vectorizer; clf := classifier |}.

Definition train_model `{SklearnFit} (X_train : list str) (y_train : Series)
    (X_val : list str) (y_val : Series)
    (max_features : Z) (C : float) (n_jobs : Z)
  : result (Pipeline * Metrics) :=
  let X_train_p := preprocess_texts X_train in
  let X_val_p := preprocess_texts X_val in
  let pipeline := build_pipeline max_features C n_jobs in
  pipeline ← fit pipeline X_train_p y_train;
  y_pred ← pipeline_predict pipeline X_val_p;
  report ← classification_report y_val y_pred;
  acc ← accuracy_score y_val y_pred;
  let metrics := {| metrics_accuracy := acc; metrics_report := report |} in
  Ok (pipeline, metrics).

End training.
Import training.

(** ** More concrete libraries *)

Module samples_training.

(** A trainer whose fitted pipeline is [even_pipeline], which predicts
    the label 1 for every text and reports the number of predictions. *)
Definition even_fit : SklearnFit := {|
  Report := nat;
  fit := fun _ _ _ => Ok even_pipeline;
  pipeline_predict := fun _ X => Ok (map (fun _ => 1) X);
  classification_report := fun _ y_pred => Ok (length y_pred);
  accuracy_score := fun _ _ => Ok 0.5%float;
|}.

(** A disk that holds a data file, and the same disk after a model was
    saved under [models]. *)
Definition disk_with_data : gmap path node := <[csv_path := File []]> ∅.

Definition disk_with_model : gmap path node :=
  <[truediv models (u "model.joblib") := File [Byte.x80; Byte.x04]]>
    (<[models := Dir]> disk_with_data).

(** A disk on which a directory stands where the artifact is expected. *)
Definition disk_with_directory : gmap path node :=
  <[truediv models (u "model.joblib") := Dir]>
    (<[models := Dir]> disk_with_data).

End samples_training.
Import samples_training.

(** ** More files *)

Module samples_data.

(** [news_csv] with a further column, in which values are missing. *)
Definition news_with_source_csv : DataFrame :=
  (u "source", SObject [PyNaN; PyStr (u "wire"); PyNaN; PyNaN]) :: news_csv.

(** pandas over a world with two files. *)
Definition pandas_two_files : Pandas := {|
  read_csv := fun p =>
    if decide (p = csv_path) then Ok news_csv else Ok news_with_source_csv;
  int_of_str := decimal_int_of_str;
  float_to_int64 := truncate_float;
  float_to_str := fun _ => u "0.0";
|}.

Definition other_csv_path : path := [u "data"; u "news_with_source.csv"].

End samples_data.
Import samples_data.

(** ** service.py *)

Module service.

(** The validated body of a request: [threshold] is a float or null. *)
Record PredictRequest : Type := {
  texts : list str;
  threshold : option float;
}.

Record PredictResponse : Type := {
  labels : list Z;
  probabilities : list float;
}.

(** How a request handler ends: it returns, it raises [HTTPException],
    or another exception escapes from it. *)
Inductive outcome (A : Type) : Type :=
| Returned (a : A)
| HTTPException (status_code : Z) (detail : string)
| Escaped (e : exception).
Arguments Returned {A} a.
Arguments HTTPException {A} status_code detail.
Arguments Escaped {A} e.

(** [bool(x)] for a float: every float but the zeros is true. *)
Definition float_bool (x : float) : bool := negb (PrimFloat.eqb x 0).

(** [x or default] for a float or [None]. *)
Definition float_or (x : option float) (default : float) : float :=
  match x with
  | Some v => if float_bool v then v else default
  | None => default
  end.

(** The handler of [POST /predict] inside [create_app]. *)
Definition predict (model : Pipeline) (req : PredictRequest)
  : outcome PredictResponse :=
  match texts req with
  | [] => HTTPException 400 "texts must be non-empty"
  | _ =>
      match predict_proba model (texts req) with
      | Err e => Escaped e
      | Ok probs =>
          match predict_label model (texts req) (float_or (threshold req) 0.5) with
          | Err e => Escaped e
          | Ok labels => Returned {| labels := labels; probabilities := probs |}
          end
      end
  end.

(** [create_app(model_dir)]: the application, as its [/predict] handler. *)
Definition create_app `{Joblib} (model_dir : path) (fs : gmap path node)
  : result (PredictRequest -> outcome PredictResponse) :=
  model ← load_model model_dir fs;
  Ok (predict model).

End service.
Import service.

(** ** Python strings: searching and slicing *)

Module py_str.

(** [s.startswith(prefix)] *)
Fixpoint startswith (s prefix : str) {struct prefix} : bool :=
  match prefix, s with
  | [], _ => true
  | p :: prefix', c :: s' => (p =? c)%N && startswith s' prefix'
  | _ :: _, [] => false
  end.

(** The first place at or after [i] where [sub] occurs, [s] being the
    text from place [i] on. *)
Fixpoint find_at (s sub : str) (i : nat) : option nat :=
  match s with
  | [] => if startswith [] sub then Some i else None
  | _ :: s' => if startswith s sub then Some i else find_at s' sub (S i)
  end.

(** The last such place. *)
Fixpoint rfind_at (s sub : str) (i : nat) : option nat :=
  match s with
  | [] => if startswith [] sub then Some i else None
  | _ :: s' =>
      match rfind_at s' sub (S i) with
      | Some j => Some j
      | None => if startswith s sub then Some i else None
      end
  end.

Definition index_or_minus_one (found : option nat) : Z :=
  match found with
  | Some i => Z.of_nat i
  | None => -1
  end.

(** [sub in s] *)
Definition contains (s sub : str) : bool :=
  match find_at s sub 0 with
  | Some _ => true
  | None => false
  end.

(** An index of a slice, brought into the range of a text of length
    [n]: a negative index counts from the end. *)
Definition clamp_index (n i : Z) : Z :=
  if i <? 0 then Z.max 0 (i + n) else Z.min i n.

(** [s.find(sub)], [s.find(sub, start)] and [s.rfind(sub)]: -1 when
    [sub] does not occur. *)
Definition find (s sub : str) : Z := index_or_minus_one (find_at s sub 0).

Definition find_from (s sub : str) (start : Z) : Z :=
  let start := Z.to_nat (clamp_index (Z.of_nat (length s)) start) in
  index_or_minus_one (find_at (drop start s) sub start).

Definition rfind (s sub : str) : Z := index_or_minus_one (rfind_at s sub 0).

(** [s[start:stop]] *)
Definition slice (s : str) (start stop : Z) : str :=
  let n := Z.of_nat (length s) in
  drop (Z.to_nat (clamp_index n start)) (take (Z.to_nat (clamp_index n stop)) s).

End py_str.
Import py_str.

(** ** gemini_detector.py *)

Module gemini_detector.

(** A value that [json.loads] returns. *)
#[warnings="-register-all"]
Inductive json : Type :=
| JNull
| JBool (b : bool)
| JInt (z : Z)
| JFloat (f : float)
| JStr (s : str)
| JList (items : list json)
| JDict (items : list (str * json)).

Record GeminiConfig : Type := {
  api_key : str;
  model_name : str;
  temperature : float;
  max_output_tokens : Z;
}.

(** [GeminiConfig(api_key=api_key)]: the other fields take their
    defaults; 0.1 is written as the nearest binary64. *)
Definition default_config (api_key : str) : GeminiConfig := {|
  api_key := api_key;
  model_name := u "gemini-2.0-flash";
  temperature := 0x1.999999999999ap-4%float;
  max_output_tokens := 1024;
|}.

(** The dictionary a detection returns. *)
Record Detection : Type := {
  is_fake : json;
  confidence : float;
  reasoning : json;
  red_flags : json;
  source_quality : json;
  factual_accuracy : json;
  raw_response : str;
}.

(** How the call of the model ends: with the text of the response, or
    with an exception of [generate_content] or of [response.text],
    given by its message [str(e)]. *)
Inductive reply : Type :=
| Text (text : str)
| Failed (message : str).

(** The operations of the Gemini client and of Python that the
    detector calls. *)
Class Gemini : Type := {
  generate_content : GeminiConfig -> str -> reply;
  (** [json.loads(s)]; [None] when it raises JSONDecodeError *)
  json_loads : str -> option json;
  (** [float(v)] for a value that is neither a float nor a bool: the
      float, or the message of the exception *)
  float_of_value : json -> float + str;
  (** [s.lower()] *)
  str_lower : str -> str;
}.

(** A literal in which [@] stands for the double quote. *)
Definition quoted (s : string) : str :=
  map (fun c => if (c =? 64)%N then 34%N else c) (u s).

Definition prompt_head : str := quoted "
You are an expert fact-checker and journalist. Analyze the following text for signs of fake news or misinformation.

Consider these factors:
1. **Source credibility**: Does it cite reliable sources?
2. **Language patterns**: Is the language sensational, inflammatory, or overly dramatic?
3. **Factual claims**: Are there verifiable facts or just opinions?
4. **Writing quality**: Is it well-written with proper grammar and structure?
5. **Emotional manipulation**: Does it use fear, anger, or other emotions to manipulate?
6. **Consistency**: Are the claims internally consistent?
7. **Timeliness**: Are the claims current and relevant?

Text to analyze:
@".

Definition prompt_tail : str := quoted "@

Please provide your analysis in the following JSON format:
{
    @is_fake@: true/false,
    @confidence@: 0.0-1.0,
    @reasoning@: @Brief explanation of your decision@,
    @red_flags@: [@List of specific concerns if any@],
    @source_quality@: @poor/fair/good/excellent@,
    @factual_accuracy@: @low/medium/high@
}

Be objective and base your analysis on journalistic standards and fact-checking principles.
".

Definition fake_indicators : list str :=
  [ u "breaking"; u "shocking"; u "you won't believe"; u "doctors hate";
    u "one weird trick"; u "click here"; u "share this"; u "urgent";
    u "exclusive"; u "insider"; u "leaked"; u "exposed" ].

(** [float(n)] for a small natural number. *)
Definition float_of_nat (n : nat) : float :=
  PrimFloat.of_uint63 (Uint63.of_Z (Z.of_nat n)).

(** [min(a, b)] on floats: [b] when it is less than [a], else [a]. *)
Definition float_min (a b : float) : float :=
  if PrimFloat.ltb b a then b else a.

(** [d.get(key, default)] on a JSON object. *)
Fixpoint dict_get_json (d : list (str * json)) (key : str) (default : json) : json :=
  match d with
  | [] => default
  | (k, v) :: d' => if decide (k = key) then v else dict_get_json d' key default
  end.

(** [float(v)] *)
Definition py_float `{Gemini} (v : json) : float + str :=
  match v with
  | JFloat f => inl f
  | JBool b => inl (if b then 1%float else 0%float)
  | _ => float_of_value v
  end.

(** The name of the type of a value, as error messages give it. *)
Definition type_name (v : json) : string :=
  match v with
  | JNull => "NoneType"
  | JBool _ => "bool"
  | JInt _ => "int"
  | JFloat _ => "float"
  | JStr _ => "str"
  | JList _ => "list"
  | JDict _ => "dict"
  end.

Section with_gemini.
Context `{Gemini}.

Definition _create_prompt (text : str) : str :=
  prompt_head ++ text ++ prompt_tail.

(** 0.8 and 0.2 are written as the nearest binary64. *)
Definition _fallback_analysis (text response_text : str) : Detection :=
  let text_lower := str_lower text in
  let found := List.filter (fun indicator => contains text_lower indicator)
                           fake_indicators in
  let fake_count := length found in
  let is_fake := (2 <? fake_count)%nat in
  let confidence :=
    float_min 0x1.999999999999ap-1
      (PrimFloat.mul (float_of_nat fake_count) 0x1.999999999999ap-3) in
  {| is_fake := JBool is_fake;
     confidence := confidence;
     reasoning := JStr (u "Fallback analysis: found "
                        ++ str_of_int (Z.of_nat fake_count)
                        ++ u " potential fake news indicators");
     red_flags := JList (map JStr found);
     source_quality := JStr (u "unknown");
     factual_accuracy := JStr (u "unknown");
     raw_response := response_text |}.

(** The result of the handler [except Exception as e]. *)
Definition error_detection (message : str) : Detection :=
  {| is_fake := JBool false;
     confidence := 0;
     reasoning := JStr (u "Error in analysis: " ++ message);
     red_flags := JList [];
     source_quality := JStr (u "unknown");
     factual_accuracy := JStr (u "unknown");
     raw_response := message |}.

(** The part of [detect_fake_news] that finds the JSON text in the
    stripped response; [None] when there is neither a fence nor a pair
    of braces. *)
Definition extract_json_text (result_text : str) : option str :=
  if contains result_text (u "```json") then
    let json_start := find result_text (u "```json") + 7 in
    let json_end := find_from result_text (u "```") json_start in
    Some (strip (slice result_text json_start json_end))
  else if contains result_text (u "{") && contains result_text (u "}") then
    let json_start := find result_text (u "{") in
    let json_end := rfind result_text (u "}") + 1 in
    Some (slice result_text json_start json_end)
  else None.

(** The part of [detect_fake_news] that parses the JSON text and
    builds the result, with its two exception handlers. *)
Definition read_json_text (text response_text result_text json_text : str)
  : Detection :=
  match json_loads json_text with
  | None => _fallback_analysis text response_text
  | Some (JDict result) =>
      match py_float (dict_get_json result (u "confidence")
                        (JFloat 0.5)) with
      | inl confidence =>
          {| is_fake := dict_get_json result (u "is_fake") (JBool false);
             confidence := confidence;
             reasoning := dict_get_json result (u "reasoning")
                            (JStr (u "Analysis completed"));
             red_flags := dict_get_json result (u "red_flags") (JList []);
             source_quality := dict_get_json result (u "source_quality")
                                 (JStr (u "unknown"));
             factual_accuracy := dict_get_json result (u "factual_accuracy")
                                   (JStr (u "unknown"));
             raw_response := result_text |}
      | inr message => error_detection message
      end
  | Some result =>
      error_detection (u "'" ++ u (type_name result)
                       ++ u "' object has no attribute 'get'")
  end.

Definition detect_fake_news (config : GeminiConfig) (text : str) : Detection :=
  let prompt := _create_prompt text in
  match generate_content config prompt with
  | Failed message => error_detection message
  | Text response_text =>
      let result_text := strip response_text in
      match extract_json_text result_text with
      | Some json_text => read_json_text text response_text result_text json_text
      | None => _fallback_analysis text result_text
      end
  end.

Definition batch_detect (config : GeminiConfig) (texts : list str)
  : list Detection :=
  map (detect_fake_news config) texts.

(** [create_gemini_detector(api_key)], [getenv] being the value of the
    environment variable GEMINI_API_KEY. The detector is its
    configuration: the constructor hands the configuration to the
    client library and calls nothing else. *)
Definition create_gemini_detector (getenv : option str) (api_key : option str)
  : result GeminiConfig :=
  match api_key with
  | Some key => Ok (default_config key)
  | None =>
      match getenv with
      | Some (c :: key) => Ok (default_config (c :: key))
      | _ =>
          Err (ValueError (OtherValueError
            "Gemini API key not provided. Set GEMINI_API_KEY environment variable or pass api_key parameter."))
      end
  end.

Definition predict_fake_news_gemini (getenv : option str) (texts : list str)
    (api_key : option str) : result (list Detection) :=
  detector ← create_gemini_detector getenv api_key;
  Ok (batch_detect detector texts).

Definition predict_single_gemini (getenv : option str) (text : str)
    (api_key : option str) : result Detection :=
  detector ← create_gemini_detector getenv api_key;
  Ok (detect_fake_news detector text).

End with_gemini.

End gemini_detector.
Import gemini_detector.

(** ** A scripted Gemini *)

Module samples_gemini.

(** [s.lower()] on ASCII text. *)
Definition ascii_lower (s : str) : str :=
  map (fun c => if ((65 <=? c) && (c <=? 90))%N then (c + 32)%N else c) s.

(** A client that always replies [answer], with a JSON reader that
    knows the empty object and one verdict. *)
Definition scripted (answer : reply) : Gemini := {|
  generate_content := fun _ _ => answer;
  json_loads := fun s =>
    if decide (s = u "{}") then Some (JDict [])
    else if decide (s = quoted "{@is_fake@: true, @confidence@: 0.9}")
    then Some (JDict [(u "is_fake", JBool true);
                      (u "confidence", JFloat 0x1.ccccccccccccdp-1)])
    else if decide (s = u "[]") then Some (JList [])
    else None;
  float_of_value := fun v =>
    match v with
    | JInt z => inl (PrimFloat.of_uint63 (Uint63.of_Z z))
    | _ => inr (u "float() argument must be a string or a real number")
    end;
  str_lower := ascii_lower;
|}.

End samples_gemini.
Import samples_gemini.

(** ** service_gemini.py *)

Module service_gemini.

(** The validated bodies of the requests. Both classes have the fields
    [texts] and [gemini_api_key]; those of [PredictRequest] are primed
    here. *)
Record PredictRequest : Type := {
  texts' : list str;
  threshold : float;
  model_type : str;
  gemini_api_key' : option str;
}.

Record PredictResponse : Type := {
  labels : list Z;
  probabilities : list float;
  response_model_type : str;
  details : option (list Detection);
}.

Record GeminiPredictRequest : Type := {
  texts : list str;
  gemini_api_key : option str;
}.

(** One entry of the results of [/predict/compare]. The nested
    dictionaries [traditional] and [gemini] are flattened; the details
    of a failed Gemini call, the dictionary that holds [str(e)] under
    the key error, are given by the exception [e]. *)
Record Comparison : Type := {
  text : str;
  traditional_label : Z;
  traditional_probability : float;
  traditional_prediction : str;
  gemini_label : option Z;
  gemini_confidence : float;
  gemini_prediction : str;
  gemini_reasoning : json;
  gemini_details : Detection + exception;
  agreement : option bool;
}.

Record Summary : Type := {
  total_texts : Z;
  agreements : Z;
  disagreements : Z;
  errors : Z;
}.

Record CompareResponse : Type := {
  results : list Comparison;
  summary : Summary;
}.

(** [bool(v)] for a value read from JSON. *)
Definition json_bool (v : json) : bool :=
  match v with
  | JNull => false
  | JBool b => b
  | JInt z => negb (z =? 0)
  | JFloat f => float_bool f
  | JStr [] => false
  | JStr (_ :: _) => true
  | JList [] => false
  | JList (_ :: _) => true
  | JDict [] => false
  | JDict (_ :: _) => true
  end.

(** [a or b] for two strings that may be [None]. *)
Definition str_or (a b : option str) : option str :=
  match a with
  | Some (c :: s) => Some (c :: s)
  | _ => b
  end.

(** The sum of 1 over the entries that satisfy [p]. *)
Definition count {A} (p : A -> bool) (l : list A) : Z :=
  Z.of_nat (length (List.filter p l)).

Section with_gemini.
Context `{Gemini}.

(** The handler of [POST /predict]; [traditional_model] is [None] when
    [model_loaded] is false. *)
Definition predict (traditional_model : option Pipeline) (req : PredictRequest)
  : outcome PredictResponse :=
  match traditional_model with
  | None => HTTPException 503 "Traditional model not loaded"
  | Some model =>
      match texts' req with
      | [] => HTTPException 400 "texts must be non-empty"
      | _ =>
          match predict_proba model (texts' req) with
          | Err e => Escaped e
          | Ok probs =>
              match predict_label model (texts' req) (threshold req) with
              | Err e => Escaped e
              | Ok labels =>
                  Returned {| labels := labels; probabilities := probs;
                              response_model_type := u "traditional";
                              details := None |}
              end
          end
      end
  end.

(** The body of the loop of [predict_compare]. *)
Definition compare_text (model : Pipeline) (getenv : option str)
    (api_key text : str) : result Comparison :=
  (* Traditional ML prediction *)
  probs ← predict_proba model [text];
  traditional_prob ← match probs with
                     | p :: _ => Ok p
                     | [] => Err IndexError
                     end;
  let traditional_label :=
    if PrimFloat.leb 0.5 traditional_prob then 1 else 0 in
  (* Gemini prediction *)
  let '(gemini_result, gemini_label, gemini_confidence) :=
    match predict_single_gemini getenv text (Some api_key) with
    | Ok gemini_result =>
        (inl gemini_result,
         Some (if json_bool (is_fake gemini_result) then 1 else 0),
         confidence gemini_result)
    | Err e => (inr e, None, 0%float)
    end in
  Ok {| text := if (100 <? length text)%nat
                then take 100 text ++ u "..." else text;
        traditional_label := traditional_label;
        traditional_probability := traditional_prob;
        traditional_prediction :=
          if traditional_label =? 1 then u "Fake" else u "Real";
        gemini_label := gemini_label;
        gemini_confidence := gemini_confidence;
        gemini_prediction :=
          match gemini_label with
          | Some 1 => u "Fake"
          | Some 0 => u "Real"
          | _ => u "Error"
          end;
        gemini_reasoning :=
          match gemini_result with
          | inl detection => reasoning detection
          | inr _ => JStr (u "Analysis failed")
          end;
        gemini_details := gemini_result;
        agreement :=
          match gemini_label with
          | Some label => Some (traditional_label =? label)
          | None => None
          end |}.

(** The handler of [POST /predict/compare]. *)
Definition predict_compare (traditional_model : option Pipeline)
    (getenv : option str) (req : GeminiPredictRequest)
  : outcome CompareResponse :=
  match texts req with
  | [] => HTTPException 400 "texts must be non-empty"
  | _ =>
      match str_or (gemini_api_key req) getenv with
      | Some (c :: key) =>
          match traditional_model with
          | None => HTTPException 503 "Traditional model not loaded"
          | Some model =>
              match mapM (compare_text model getenv (c :: key)) (texts req) with
              | Err e => Escaped e
              | Ok results =>
                  Returned
                    {| results := results;
                       summary :=
                         {| total_texts := Z.of_nat (length (texts req));
                            agreements :=
                              count (fun r => bool_decide
                                       (agreement r = Some true)) results;
                            disagreements :=
                              count (fun r => bool_decide
                                       (agreement r = Some false)) results;
                            errors :=
                              count (fun r => bool_decide
                                       (gemini_label r = None)) results |} |}
              end
          end
      | _ => HTTPException 400 "Gemini API key required for comparison"
      end
  end.

End with_gemini.

(** [create_enhanced_app(model_dir)]: the application, as the model its
    handlers use, [None] when [model_loaded] is false. *)
Definition create_enhanced_app `{Joblib} (model_dir : path)
    (fs : gmap path node) : result (option Pipeline) :=
  match load_model model_dir fs with
  | Ok traditional_model => Ok (Some traditional_model)
  | Err (FileNotFoundError _) => Ok None
  | Err e => Err e
  end.

End service_gemini.

(** ** Failure kinds and label codes *)

(** The failure kinds of the specification, as the code raises them. *)

(** SchemaError: the ValueError of [load_dataset_csv] for a missing column. *)
Definition SchemaError (e : exception) : Prop :=
  match e with
  | ValueError (ExpectedColumns _ _) => True
  | _ => False
  end.

(** LabelFormatError: what the coercion [astype(int)] raises. *)
Definition LabelFormatError (e : exception) : Prop :=
  match e with
  | ValueError (InvalidLiteral _) => True
  | ValueError CannotConvertNaN => True
  | ValueError NonFiniteToInteger => True
  | OverflowError => True
  | _ => False
  end.

(** ModelNotFoundError: the FileNotFoundError of [load_model]. *)
Definition ModelNotFoundError (e : exception) : Prop :=
  match e with
  | FileNotFoundError _ => True
  | _ => False
  end.

(** ConfigError: the ValueError of scikit-learn's parameter validation. *)
Definition ConfigError (e : exception) : Prop :=
  match e with
  | ValueError (InvalidParameter _) => True
  | _ => False
  end.

(** The label values the table of [_normalize_labels] recognises, and
    the numeric ones, each with the integer it becomes. *)
Inductive label_code : pyobject -> Z -> Prop :=
| code_fake s :
    s ∈ [u "FAKE"; u "fake"; u "FALSE"; u "false"] -> label_code (PyStr s) 1
| code_real s :
    s ∈ [u "REAL"; u "real"; u "TRUE"; u "true"] -> label_code (PyStr s) 0
| code_int z : in_int64 z = true -> label_code (PyInt z) z
| code_bool b : label_code (PyBool b) (Z.b2z b).

(** ** Properties of the normaliser *)

Lemma isspace_SPACE : isspace SPACE = true.
Proof. reflexivity. Qed.

Lemma isspace_0 : isspace 0%N = false.
Proof. reflexivity. Qed.

(** The scan agrees with the greedy match of [\s+]: a whole run of
    whitespace is one match, replaced by one space. *)
Lemma whitespace_re_sub_from_true (s : str) :
  whitespace_re_sub_from true s = whitespace_re_sub (lstrip s).
Proof.
  unfold whitespace_re_sub.
  induction s as [|c r IH]; simpl; [done|].
  destruct (isspace c) eqn:E; simpl; [done|]. by rewrite E.
Qed.

Lemma whitespace_re_sub_run (c : N) (r : str) :
  isspace c = true ->
  whitespace_re_sub (c :: r) = SPACE :: whitespace_re_sub (lstrip r).
Proof.
  intros E. unfold whitespace_re_sub at 1. simpl. rewrite E.
  by rewrite whitespace_re_sub_from_true.
Qed.

Lemma whitespace_re_sub_char (c : N) (r : str) :
  isspace c = false ->
  whitespace_re_sub (c :: r) = c :: whitespace_re_sub r.
Proof. intros E. unfold whitespace_re_sub. simpl. by rewrite E. Qed.

Lemma lstrip_head (s : str) :
  match lstrip s with [] => True | c :: _ => isspace c = false end.
Proof.
  induction s as [|c r IH]; simpl; [done|].
  destruct (isspace c) eqn:E; [done|]. exact E.
Qed.

Lemma lstrip_snoc (a : str) (y : N) :
  isspace y = false -> lstrip (a ++ [y]) = lstrip a ++ [y].
Proof.
  intros Hy. induction a as [|c r IH]; simpl.
  - by rewrite Hy.
  - destruct (isspace c); [exact IH | done].
Qed.

Lemma lstrip_id (c : N) (r : str) :
  isspace c = false -> lstrip (c :: r) = c :: r.
Proof. intros E. simpl. by rewrite E. Qed.

Lemma rstrip_no_trailing (s : str) : no_trailing_space (rstrip s).
Proof.
  unfold no_trailing_space, rstrip.
  pose proof (lstrip_head (rev s)) as H.
  destruct (lstrip (rev s)) as [|c r]; simpl; [done|].
  by rewrite last_last.
Qed.

Lemma rstrip_id (s : str) : no_trailing_space s -> rstrip s = s.
Proof.
  unfold no_trailing_space, rstrip. intros H.
  destruct s as [|c r]; [done|].
  assert (Hne : c :: r <> []) by done.
  rewrite (app_removelast_last 0%N Hne) at 1.
  rewrite rev_unit, lstrip_id by exact H.
  change (rev (rev [List.last (c :: r) 0%N] ++ rev (removelast (c :: r))) = c :: r).
  rewrite <- rev_app_distr, rev_involutive.
  symmetry. by apply app_removelast_last.
Qed.

Lemma rstrip_head (c : N) (r : str) :
  isspace c = false -> exists r', rstrip (c :: r) = c :: r'.
Proof.
  intros E. unfold rstrip. simpl.
  rewrite lstrip_snoc by exact E.
  rewrite rev_unit. eauto.
Qed.

(** What [strip] returns: nothing, or a text that neither starts nor
    ends with whitespace. *)
Lemma strip_shape (s : str) :
  strip s = [] \/
  exists c r, strip s = c :: r /\ isspace c = false /\ no_trailing_space (c :: r).
Proof.
  unfold strip.
  pose proof (lstrip_head s) as H.
  destruct (lstrip s) as [|c r]; [by left|right].
  destruct (rstrip_head c r H) as [r' Hr'].
  exists c, r'. split; [exact Hr'|]. split; [exact H|].
  rewrite <- Hr'. apply rstrip_no_trailing.
Qed.

Lemma no_trailing_space_tail (c : N) (r : str) :
  no_trailing_space (c :: r) -> r <> [] -> no_trailing_space r.
Proof. unfold no_trailing_space. destruct r; [done|]. done. Qed.

Lemma sub_single_spaced (r : str) :
  no_trailing_space r ->
  (forall c, isspace c = false -> single_spaced (c :: whitespace_re_sub r)) /\
  (r <> [] -> single_spaced (whitespace_re_sub_from true r)).
Proof.
  unfold whitespace_re_sub.
  induction r as [|x r IH]; intros Hlast.
  - split; [|done]. intros c Hc. by apply ss_one.
  - assert (Hx : isspace x = true -> r <> []).
    { intros Ex ->. unfold no_trailing_space in Hlast. simpl in Hlast. congruence. }
    assert (Hr : no_trailing_space r).
    { destruct r; [apply isspace_0|]. by eapply no_trailing_space_tail. }
    destruct (IH Hr) as [IH1 IH2]. simpl.
    destruct (isspace x) eqn:Ex.
    + split.
      * intros c Hc. apply ss_sep; [exact Hc|]. by apply IH2, Hx.
      * intros _. by apply IH2, Hx.
    + split.
      * intros c Hc. apply ss_cons; [exact Hc|]. by apply IH1.
      * intros _. by apply IH1.
Qed.

Lemma single_spaced_head (s : str) :
  single_spaced s -> exists c r, s = c :: r /\ isspace c = false.
Proof. destruct 1; eauto. Qed.

Lemma single_spaced_last (s : str) : single_spaced s -> no_trailing_space s.
Proof.
  unfold no_trailing_space.
  induction 1 as [c Hc|c r Hc Hr IH|c r Hc Hr IH]; [exact Hc| |].
  - destruct (single_spaced_head r Hr) as (c' & r' & -> & _). exact IH.
  - destruct (single_spaced_head r Hr) as (c' & r' & -> & _). exact IH.
Qed.

Lemma single_spaced_sub (s : str) :
  single_spaced s -> whitespace_re_sub s = s.
Proof.
  induction 1 as [c Hc|c r Hc Hr IH|c r Hc Hr IH].
  - by rewrite whitespace_re_sub_char.
  - by rewrite whitespace_re_sub_char, IH.
  - rewrite whitespace_re_sub_char by exact Hc.
    rewrite whitespace_re_sub_run by apply isspace_SPACE.
    destruct (single_spaced_head r Hr) as (c' & r' & -> & Hc').
    by rewrite lstrip_id, IH.
Qed.

Lemma single_spaced_strip (s : str) : single_spaced s -> strip s = s.
Proof.
  intros H. unfold strip.
  destruct (single_spaced_head s H) as (c & r & -> & Hc).
  rewrite lstrip_id by exact Hc.
  by apply rstrip_id, single_spaced_last.
Qed.

Lemma normalize_whitespace_shape (s : str) :
  normalize_whitespace s = [] \/ single_spaced (normalize_whitespace s).
Proof.
  unfold normalize_whitespace.
  destruct (strip_shape s) as [->|(c & r & -> & Hc & Hl)]; [by left|right].
  rewrite whitespace_re_sub_char by exact Hc.
  apply sub_single_spaced; [|exact Hc].
  destruct r; [apply isspace_0|]. by eapply no_trailing_space_tail.
Qed.

Lemma normalize_whitespace_fixed (s : str) :
  s = [] \/ single_spaced s -> normalize_whitespace s = s.
Proof.
  intros [->|H]; [done|].
  unfold normalize_whitespace.
  by rewrite single_spaced_strip, single_spaced_sub.
Qed.

(** ** Properties of the dataset loader *)

Section loader_facts.
Context `{Pandas}.

Lemma getitem_Ok_columns (df : DataFrame) (col : str) (s : Series) :
  getitem df col = Ok s -> col ∈ columns df.
Proof.
  induction df as [|[name s0] df IH]; simpl; [done|].
  case_decide as E; [subst; intros _; apply list_elem_of_here|].
  intros Hg. apply list_elem_of_further, IH, Hg.
Qed.

Lemma columns_getitem (df : DataFrame) (col : str) :
  col ∈ columns df -> exists s, getitem df col = Ok s.
Proof.
  induction df as [|[name s0] df IH]; simpl.
  - intros Hin. by apply elem_of_nil in Hin.
  - intros Hin. case_decide as E; [eauto|].
    apply elem_of_cons in Hin as [->|Hin]; [done|]. by apply IH.
Qed.

Lemma bind_Ok {A B} (a : A) (f : A -> result B) : (Ok a ≫= f) = f a.
Proof. reflexivity. Qed.

(** What the loader does with a file that has both columns: it keeps
    the complete rows, normalises the labels and turns the texts into
    strings. *)
Lemma load_dataset_csv_present (csv_path : path) (text_col label_col : str)
    (df : DataFrame) (X y : Series) :
  read_csv csv_path = Ok df ->
  getitem df text_col = Ok X ->
  getitem df label_col = Ok y ->
  text_col <> label_col ->
  let mask := complete_rows [(text_col, X); (label_col, y)] in
  load_dataset_csv csv_path text_col label_col
  = (labels ← _normalize_labels (Series_select mask y);
     Ok [(text_col, astype_str (Series_select mask X)); (label_col, labels)]).
Proof.
  intros Hread HX Hy Hne mask. unfold load_dataset_csv.
  rewrite Hread, bind_Ok.
  rewrite !bool_decide_eq_false_2
    by (intros Hn; apply Hn; eapply getitem_Ok_columns; eassumption).
  simpl orb. cbv iota.
  rewrite HX, bind_Ok, Hy, bind_Ok.
  rewrite decide_False by exact Hne.
  unfold dropna. fold mask. simpl map. simpl getitem.
  rewrite (decide_False (P := text_col = label_col)) by exact Hne.
  rewrite (decide_True (P := label_col = label_col)) by reflexivity.
  rewrite bind_Ok.
  destruct (_normalize_labels (Series_select mask y)) as [labels|e];
    [|reflexivity].
  rewrite !bind_Ok. simpl.
  rewrite (decide_False (P := text_col = label_col)) by exact Hne.
  rewrite (decide_True (P := label_col = label_col)) by reflexivity.
  simpl getitem.
  rewrite (decide_True (P := text_col = text_col)) by reflexivity.
  rewrite bind_Ok. simpl.
  rewrite (decide_True (P := text_col = text_col)) by reflexivity.
  reflexivity.
Qed.

Lemma int_of_object_error (v : pyobject) (e : exception) :
  int_of_object v = Err e -> LabelFormatError e.
Proof.
  destruct v as [s|z|b|]; simpl; unfold to_int64.
  - destruct (int_of_str s) as [z|]; [destruct (in_int64 z)|]; by intros [= <-].
  - destruct (in_int64 z); by intros [= <-].
  - done.
  - by intros [= <-].
Qed.

Lemma int_of_float_error (f : float) (e : exception) :
  int_of_float f = Err e -> LabelFormatError e.
Proof.
  unfold int_of_float. destruct (float_to_int64 f); by intros [= <-].
Qed.

Lemma mapM_error {A B} (f : A -> result B) (l : list A) (e : exception) :
  mapM f l = Err e -> exists x, x ∈ l /\ f x = Err e.
Proof.
  induction l as [|x l IH]; simpl; [done|].
  destruct (f x) as [b|e'] eqn:Ef.
  - rewrite bind_Ok. destruct (mapM f l) as [k|e'']; [done|].
    intros [= <-]. destruct (IH eq_refl) as (x' & Hin & Hx').
    exists x'. split; [by apply list_elem_of_further|done].
  - intros [= <-]. exists x. split; [apply list_elem_of_here|done].
Qed.

Lemma mapM_raises {A B} (f : A -> result B) (l : list A) (x : A) :
  x ∈ l -> raised (f x) -> raised (mapM f l).
Proof.
  intros Hin [e He]. induction l as [|x' l IH]; [by apply elem_of_nil in Hin|].
  simpl. destruct (f x') as [b|e'] eqn:Ef; [|by eexists].
  apply elem_of_cons in Hin as [->|Hin]; [congruence|].
  destruct (IH Hin) as [e' ->]. by eexists.
Qed.

Lemma mapM_Ok {A B} (f : A -> result B) (l : list A) (k : list B) :
  Forall2 (fun x b => f x = Ok b) l k -> mapM f l = Ok k.
Proof. induction 1 as [|x b l k Hx _ IH]; simpl; [done|]. by rewrite Hx, IH. Qed.

Lemma astype_int_error (series : Series) (e : exception) :
  astype_int series = Err e -> LabelFormatError e.
Proof.
  destruct series as [vs|vs|vs|vs]; simpl; [done| |done|].
  - destruct (mapM int_of_float vs) eqn:E; [done|]. intros [= <-].
    apply mapM_error in E as (x & _ & Hx). by eapply int_of_float_error.
  - destruct (mapM int_of_object vs) eqn:E; [done|]. intros [= <-].
    apply mapM_error in E as (x & _ & Hx). by eapply int_of_object_error.
Qed.

Lemma _normalize_labels_error (series : Series) (e : exception) :
  _normalize_labels series = Err e -> LabelFormatError e.
Proof. destruct series; apply astype_int_error. Qed.

(** A value outside the table passes through the lookup unchanged. *)
Lemma dict_get_unknown (s : str) :
  dict_lookup mapping s = None -> dict_get mapping (PyStr s) (PyStr s) = PyStr s.
Proof. intros E. unfold dict_get. by rewrite E. Qed.

Lemma _normalize_labels_unknown (vs : list pyobject) (s : str) :
  PyStr s ∈ vs ->
  dict_lookup mapping s = None ->
  int_of_str s = None ->
  exists e, _normalize_labels (SObject vs) = Err e /\ LabelFormatError e.
Proof.
  intros Hin Hmap Hint.
  assert (Hr : raised (mapM int_of_object (map (fun v => dict_get mapping v v) vs))).
  { apply mapM_raises with (x := PyStr s).
    - rewrite <- (dict_get_unknown s Hmap).
      apply (list_elem_of_fmap_2 (fun v => dict_get mapping v v)), Hin.
    - exists (ValueError (InvalidLiteral s)). simpl. by rewrite Hint. }
  destruct Hr as [e He]. exists e. split.
  - simpl. by rewrite He.
  - apply (_normalize_labels_error (SObject vs)). simpl. by rewrite He.
Qed.

Lemma label_code_int_of_object (v : pyobject) (z : Z) :
  label_code v z -> int_of_object (dict_get mapping v v) = Ok z.
Proof.
  destruct 1 as [s Hs|s Hs|z Hz|b].
  - repeat (apply elem_of_cons in Hs as [->|Hs]; [reflexivity|]).
    by apply elem_of_nil in Hs.
  - repeat (apply elem_of_cons in Hs as [->|Hs]; [reflexivity|]).
    by apply elem_of_nil in Hs.
  - simpl. unfold to_int64. by rewrite Hz.
  - reflexivity.
Qed.

Lemma select_lookup {A} (mask : list bool) (l : list A) (i : nat) (x : A) :
  mask !! i = Some true -> l !! i = Some x -> x ∈ select mask l.
Proof.
  revert l i. induction mask as [|b mask IH]; intros [|y l] [|i]; simpl; try done.
  - intros [= ->] [= ->]. apply list_elem_of_here.
  - intros Hm Hl. destruct b; [apply list_elem_of_further|]; by eapply IH.
Qed.

Lemma notna_length (s : Series) : length (notna s) = Series_len s.
Proof. destruct s; simpl; apply length_map. Qed.

Lemma complete_rows_lookup (text_col label_col : str) (X y : Series) (i : nat) :
  notna X !! i = Some true ->
  notna y !! i = Some true ->
  complete_rows [(text_col, X); (label_col, y)] !! i = Some true.
Proof.
  intros HX Hy. unfold complete_rows. simpl.
  rewrite !lookup_zip_with, HX, Hy. simpl.
  rewrite lookup_replicate_2; [done|].
  rewrite <- notna_length. by eapply lookup_lt_Some.
Qed.

End loader_facts.

Section loader_claims.
Context `{Pandas}.

Lemma load_dataset_csv_absent (csv_path : path) (text_col label_col : str)
    (df : DataFrame) :
  read_csv csv_path = Ok df ->
  text_col ∉ columns df \/ label_col ∉ columns df ->
  load_dataset_csv csv_path text_col label_col
  = Err (ValueError (ExpectedColumns text_col label_col)).
Proof.
  intros Hread Habs. unfold load_dataset_csv. rewrite Hread, bind_Ok.
  destruct Habs as [Ha|Ha]; rewrite (bool_decide_eq_true_2 _ Ha);
    [done|by rewrite orb_true_r].
Qed.

Lemma load_dataset_csv_no_schema_error (csv_path : path)
    (text_col label_col : str) (df : DataFrame) (e : exception) :
  read_csv csv_path = Ok df ->
  text_col ∈ columns df -> label_col ∈ columns df ->
  load_dataset_csv csv_path text_col label_col = Err e ->
  ~ SchemaError e.
Proof.
  intros Hread Ht Hl.
  destruct (columns_getitem df text_col Ht) as [X HX].
  destruct (columns_getitem df label_col Hl) as [y Hy].
  destruct (decide (text_col = label_col)) as [Heq|Hne].
  - unfold load_dataset_csv. rewrite Hread, bind_Ok.
    rewrite !bool_decide_eq_false_2 by (intros Hn; by apply Hn).
    simpl orb. cbv iota. rewrite HX, bind_Ok, Hy, bind_Ok.
    rewrite decide_True by exact Heq. intros [= <-]. exact id.
  - rewrite (load_dataset_csv_present _ _ _ _ _ _ Hread HX Hy Hne).
    destruct (_normalize_labels _) as [labels|e'] eqn:E; [done|].
    intros [= <-] Hs. apply _normalize_labels_error in E.
    by destruct e' as [[]| | | | | | | | | |].
Qed.

End loader_claims.

(** C4 (as amended). For a file with both columns, the labels of the
    complete rows are normalised by an exact lookup in a table that holds
    the upper-case and the lower-case spellings only: FAKE, fake, FALSE,
    false become 1 and REAL, real, TRUE, true become 0; numeric values (an
    integer, a boolean, a float) are turned into integers with no lookup.
    The file with the labels FAKE, real, TRUE, false gives 1, 0, 0, 1
    (the statement at [samples.news_csv]). *)
Theorem load_dataset_csv_labels `{Pandas} (csv_path : path)
    (text_col label_col : str) (df : DataFrame) (X y : Series) :
  read_csv csv_path = Ok df ->
  getitem df text_col = Ok X ->
  getitem df label_col = Ok y ->
  text_col <> label_col ->
  let mask := complete_rows [(text_col, X); (label_col, y)] in
  let loaded (labels : list Z) :=
    load_dataset_csv csv_path text_col label_col
    = Ok [(text_col, astype_str (Series_select mask X));
          (label_col, SInt64 labels)] in
  (forall vs codes, y = SObject vs ->
     Forall2 label_code (select mask vs) codes -> loaded codes) /\
  (forall zs, y = SInt64 zs -> loaded (select mask zs)) /\
  (forall bs, y = SBool bs -> loaded (map Z.b2z (select mask bs))) /\
  (forall fs zs, y = SFloat64 fs ->
     Forall2 (fun f z => float_to_int64 f = Some z) (select mask fs) zs ->
     loaded zs).
Proof.
  intros Hread HX Hy Hne mask loaded. unfold loaded.
  rewrite (load_dataset_csv_present _ _ _ _ _ _ Hread HX Hy Hne). fold mask.
  repeat split.
  - intros vs codes -> Hcodes. simpl.
    rewrite (mapM_Ok int_of_object _ codes); [done|].
    apply Forall2_fmap_l. eapply Forall2_impl; [exact Hcodes|].
    intros v z. apply label_code_int_of_object.
  - by intros zs ->.
  - by intros bs ->.
  - intros fs zs -> Hzs. simpl.
    rewrite (mapM_Ok int_of_float _ zs); [done|].
    eapply Forall2_impl; [exact Hzs|].
    intros f z Hf. unfold int_of_float. by rewrite Hf.
Qed.

(** The labels FAKE, real, TRUE, false are loaded as 1, 0, 0, 1. *)
Lemma load_dataset_csv_labels_news :
  @load_dataset_csv (pandas_reading news_csv) csv_path (u "text") (u "label")
  = Ok [(u "text", four_texts); (u "label", SInt64 [1; 0; 0; 1])].
Proof.
  refine (proj1 (@load_dataset_csv_labels (pandas_reading news_csv) csv_path
            (u "text") (u "label") news_csv four_texts _ eq_refl eq_refl eq_refl _)
            _ [1; 0; 0; 1] eq_refl _).
  - discriminate.
  - repeat constructor; apply bool_decide_unpack; vm_compute; exact I.
Defined.

(** The capitalised spelling [Fake] is not in the table: the file is not
    loaded with the label 1, the coercion to an integer fails. *)
Lemma load_dataset_csv_Fake_fails :
  @load_dataset_csv (pandas_reading capitalised_csv) csv_path (u "text") (u "label")
  = Err (ValueError (InvalidLiteral (u "Fake"))).
Proof. reflexivity. Qed.

(** C6. When a file has the text column and the label column, and a
    row that the loader keeps, its text not missing, holds as label a
    string outside the table of [_normalize_labels] which [int] rejects,
    the loader fails with the error of the integer coercion: the value
    is not passed through. *)
Theorem load_dataset_csv_unknown_label `{Pandas} (csv_path : path)
    (text_col label_col : str) (df : DataFrame) (X : Series)
    (vs : list pyobject) (i : nat) (s : str) :
  read_csv csv_path = Ok df ->
  getitem df text_col = Ok X ->
  getitem df label_col = Ok (SObject vs) ->
  text_col <> label_col ->
  notna X !! i = Some true ->
  vs !! i = Some (PyStr s) ->
  dict_lookup mapping s = None ->
  int_of_str s = None ->
  exists e, load_dataset_csv csv_path text_col label_col = Err e /\
            LabelFormatError e.
Proof.
  intros Hread HX Hy Hne Htext Hlabel Hmap Hint.
  rewrite (load_dataset_csv_present _ _ _ _ _ _ Hread HX Hy Hne).
  set (mask := complete_rows _). simpl Series_select.
  assert (Hin : PyStr s ∈ select mask vs).
  { apply select_lookup with (i := i); [|exact Hlabel].
    apply complete_rows_lookup; [exact Htext|].
    simpl. by rewrite list_lookup_fmap, Hlabel. }
  destruct (_normalize_labels_unknown _ _ Hin Hmap Hint) as (e & He & Hk).
  exists e. by rewrite He.
Qed.

Lemma load_dataset_csv_unknown_label_garbage :
  exists e,
    @load_dataset_csv (pandas_reading garbage_csv) csv_path (u "text") (u "label")
    = Err e /\ LabelFormatError e.
Proof.
  apply (@load_dataset_csv_unknown_label (pandas_reading garbage_csv) csv_path
           (u "text") (u "label") garbage_csv
           (SObject [PyStr (u "hello"); PyStr (u "world")])
           [PyStr (u "FAKE"); PyStr (u "garbage")] 1%nat (u "garbage"));
    solve [reflexivity | discriminate].
Defined.

(** C7. For a file that [read_csv] parses, the loader raises the
    ValueError for missing columns exactly when the text column or the
    label column is not among the file's columns. *)
Theorem load_dataset_csv_schema_error `{Pandas} (csv_path : path)
    (text_col label_col : str) (df : DataFrame) :
  read_csv csv_path = Ok df ->
  (exists e, load_dataset_csv csv_path text_col label_col = Err e /\ SchemaError e)
  <-> (text_col ∉ columns df \/ label_col ∉ columns df).
Proof.
  intros Hread. split.
  - intros (e & He & Hs).
    destruct (decide (text_col ∈ columns df)) as [Ht|Ht]; [|by left].
    destruct (decide (label_col ∈ columns df)) as [Hl|Hl]; [|by right].
    by destruct (load_dataset_csv_no_schema_error _ _ _ _ _ Hread Ht Hl He).
  - intros Habs. eexists.
    split; [exact (load_dataset_csv_absent _ _ _ df Hread Habs)|done].
Qed.

Lemma load_dataset_csv_schema_error_unlabelled :
  (exists e,
     @load_dataset_csv (pandas_reading unlabelled_csv) csv_path (u "text") (u "label")
     = Err e /\ SchemaError e)
  <-> (u "text" ∉ columns unlabelled_csv \/ u "label" ∉ columns unlabelled_csv).
Proof.
  apply (@load_dataset_csv_schema_error (pandas_reading unlabelled_csv)).
  reflexivity.
Defined.

(** C10. When the dtype of the label column is not [object] the loader
    looks nothing up and casts the labels to integers: a boolean column
    gives 1 for True and 0 for False, the opposite of the strings TRUE
    (0) and FALSE (1). *)
Theorem load_dataset_csv_non_object_labels `{Pandas} (csv_path : path)
    (text_col label_col : str) (df : DataFrame) (X y : Series) :
  read_csv csv_path = Ok df ->
  getitem df text_col = Ok X ->
  getitem df label_col = Ok y ->
  text_col <> label_col ->
  Series_dtype y <> object ->
  let mask := complete_rows [(text_col, X); (label_col, y)] in
  _normalize_labels y = astype_int y /\
  load_dataset_csv csv_path text_col label_col
  = (labels ← astype_int (Series_select mask y);
     Ok [(text_col, astype_str (Series_select mask X)); (label_col, labels)]) /\
  (forall bs, y = SBool bs ->
     load_dataset_csv csv_path text_col label_col
     = Ok [(text_col, astype_str (Series_select mask X));
           (label_col, SInt64 (map Z.b2z (select mask bs)))]) /\
  _normalize_labels (SBool [true; false]) = Ok (SInt64 [1; 0]) /\
  _normalize_labels (SObject [PyStr (u "TRUE"); PyStr (u "FALSE")])
  = Ok (SInt64 [0; 1]).
Proof.
  intros Hread HX Hy Hne Hdt mask.
  rewrite (load_dataset_csv_present _ _ _ _ _ _ Hread HX Hy Hne). fold mask.
  repeat split.
  - by destruct y.
  - by destruct y.
  - by intros bs ->.
Qed.

Lemma load_dataset_csv_non_object_labels_boolean :
  @load_dataset_csv (pandas_reading boolean_csv) csv_path (u "text") (u "label")
  = Ok [(u "text", SObject [PyStr (u "a"); PyStr (u "b")]);
        (u "label", SInt64 [1; 0])].
Proof.
  refine (proj1 (proj2 (proj2 (@load_dataset_csv_non_object_labels
            (pandas_reading boolean_csv) csv_path (u "text") (u "label")
            boolean_csv (SObject [PyStr (u "a"); PyStr (u "b")])
            (SBool [true; false]) eq_refl eq_refl eq_refl _ _))) _ eq_refl);
    discriminate.
Defined.

(** C9. Given scikit-learn's validation of [test_size], the splitter
    applied to a dataset that has the text and the label column fails,
    for every validation fraction that is not strictly between 0 and 1,
    with the error of that validation. *)
Theorem train_val_split_rejects_fraction `{Sklearn} (df : DataFrame)
    (text_col label_col : str) (val_size : float) (random_state : Z) :
  validates_test_size ->
  text_col ∈ columns df ->
  label_col ∈ columns df ->
  in_open_unit_interval val_size = false ->
  exists e, train_val_split df text_col label_col val_size random_state = Err e /\
            ConfigError e.
Proof.
  intros Hval Ht Hl Hout.
  destruct (columns_getitem df text_col Ht) as [X HX].
  destruct (columns_getitem df label_col Hl) as [y Hy].
  unfold train_val_split. rewrite HX, bind_Ok, Hy, bind_Ok.
  rewrite (Hval X y val_size y random_state Hout).
  eexists. split; [reflexivity|done].
Qed.

Lemma holdout_first_validates : @validates_test_size holdout_first.
Proof.
  intros X y v stratify random_state Hout.
  unfold train_test_split, holdout_first. by rewrite Hout.
Defined.

Lemma train_val_split_rejects_fraction_1_5 :
  exists e,
    @train_val_split holdout_first news_csv (u "text") (u "label") 1.5 42 = Err e /\
    ConfigError e.
Proof.
  apply (@train_val_split_rejects_fraction holdout_first news_csv
           (u "text") (u "label") 1.5%float 42 holdout_first_validates).
  - apply (bool_decide_unpack _). vm_compute. exact I.
  - apply (bool_decide_unpack _). vm_compute. exact I.
  - reflexivity.
Defined.

(** ** Properties of the model store and the inference functions *)

Section store_facts.
Context `{Joblib}.

Lemma mkdir_from_returns (rest : list str) (walked : path) (fs : gmap path node) :
  (forall k content, fs !! (walked ++ take k rest) <> Some (File content)) ->
  exists fs1,
    mkdir_from walked rest fs = Ok fs1 /\
    forall p, (forall k, p <> walked ++ take k rest) -> fs1 !! p = fs !! p.
Proof.
  revert walked fs. induction rest as [|name rest IH]; intros walked fs Hfs.
  - exists fs. by split.
  - assert (Hstep : forall k, (walked ++ [name]) ++ take k rest
                              = walked ++ take (S k) (name :: rest)).
    { intros k. by rewrite <- app_assoc. }
    simpl.
    destruct (fs !! truediv walked name) as [[|content]|] eqn:Ecur;
      unfold truediv in *.
    + destruct (IH (walked ++ [name]) fs) as (fs1 & Hmk & Hframe).
      { intros k content. rewrite Hstep. apply Hfs. }
      exists fs1. split; [exact Hmk|].
      intros p Hp. apply Hframe. intros k. rewrite Hstep. apply Hp.
    + destruct (Hfs 1%nat content). simpl. by rewrite take_0.
    + destruct (IH (walked ++ [name]) (<[walked ++ [name] := Dir]> fs))
        as (fs1 & Hmk & Hframe).
      { intros k content. rewrite lookup_insert. case_decide; [done|].
        rewrite Hstep. apply Hfs. }
      exists fs1. split; [exact Hmk|].
      intros p Hp. rewrite Hframe.
      * apply lookup_insert_ne. specialize (Hp 1%nat). simpl in Hp.
        rewrite take_0 in Hp. congruence.
      * intros k. rewrite Hstep. apply Hp.
Qed.

(** [save_model] returns on a writable directory. *)
Lemma save_model_returns (pipeline : Pipeline) (model_dir : path)
    (fs : gmap path node) :
  writable fs model_dir ->
  exists fs', save_model pipeline model_dir fs
              = Ok (truediv model_dir (u "model.joblib"), fs').
Proof.
  intros [Hdirs Hfile]. unfold save_model, mkdir.
  destruct (mkdir_from_returns model_dir [] fs Hdirs) as (fs1 & -> & Hframe).
  rewrite bind_Ok. unfold joblib_dump.
  assert (Hsame : fs1 !! truediv model_dir (u "model.joblib")
                  = fs !! truediv model_dir (u "model.joblib")).
  { apply Hframe. intros k Heq. apply (f_equal length) in Heq.
    unfold truediv in Heq. simpl in Heq.
    rewrite length_app, length_take in Heq. simpl in Heq. lia. }
  rewrite Hsame.
  destruct (fs !! truediv model_dir (u "model.joblib")) as [[|content]|];
    [done| |]; rewrite bind_Ok; eauto.
Qed.

Lemma save_model_artifact (pipeline : Pipeline) (model_dir : path)
    (fs fs' : gmap path node) (model_path : path) :
  save_model pipeline model_dir fs = Ok (model_path, fs') ->
  model_path = truediv model_dir (u "model.joblib") /\
  fs' !! model_path = Some (File (serialize pipeline)).
Proof.
  unfold save_model. destruct (mkdir model_dir fs) as [fs1|e]; [|done].
  rewrite bind_Ok. unfold joblib_dump.
  destruct (fs1 !! truediv model_dir (u "model.joblib")) as [[|content]|];
    [done| |]; rewrite bind_Ok; intros [= <- <-];
    (split; [done|apply lookup_insert_eq]).
Qed.

Lemma load_model_artifact (model_dir : path) (fs : gmap path node)
    (content : bytes) :
  fs !! truediv model_dir (u "model.joblib") = Some (File content) ->
  load_model model_dir fs
  = match deserialize content with
    | Some value => Ok value
    | None => Err UnpicklingError
    end.
Proof.
  intros Hfile. unfold load_model, exists_, joblib_load. rewrite Hfile.
  by rewrite bool_decide_eq_true_2.
Qed.

End store_facts.

(** C1. When joblib's serialisation keeps what a pipeline predicts,
    [save_model] returns on every writable directory, and [load_model]
    after a [save_model] that returned yields a pipeline with the same
    [predict_proba] and [predict_label] results on every list of texts
    and every threshold. *)
Theorem save_load_round_trip `{Joblib} (pipeline : Pipeline) (model_dir : path)
    (fs : gmap path node) :
  faithful pipeline ->
  (writable fs model_dir ->
   exists fs', save_model pipeline model_dir fs
               = Ok (truediv model_dir (u "model.joblib"), fs')) /\
  (forall model_path fs',
     save_model pipeline model_dir fs = Ok (model_path, fs') ->
     exists loaded,
       load_model model_dir fs' = Ok loaded /\
       forall texts,
         predict_proba loaded texts = predict_proba pipeline texts /\
         forall threshold,
           predict_label loaded texts threshold
           = predict_label pipeline texts threshold).
Proof.
  intros (loaded & Hload & Hsame). split; [apply save_model_returns|].
  intros model_path fs' Hsave.
  apply save_model_artifact in Hsave as [-> Hfile].
  exists loaded. split.
  - by rewrite (load_model_artifact _ _ _ Hfile), Hload.
  - intros texts.
    assert (Hp : predict_proba loaded texts = predict_proba pipeline texts).
    { unfold predict_proba. by rewrite Hsame. }
    split; [exact Hp|]. intros threshold. unfold predict_label. by rewrite Hp.
Qed.

Lemma even_pipeline_faithful : @faithful even_joblib even_pipeline.
Proof. exists even_pipeline. by split. Defined.

Lemma models_writable : writable ∅ models.
Proof. split; [intros k content|]; by rewrite lookup_empty. Defined.

Lemma save_load_round_trip_models :
  (exists fs', @save_model even_joblib even_pipeline models ∅
               = Ok (truediv models (u "model.joblib"), fs')) /\
  exists loaded,
    @load_model even_joblib models
      (<[truediv models (u "model.joblib") := File [Byte.x80; Byte.x04]]>
         (<[models := Dir]> ∅)) = Ok loaded /\
    forall texts,
      predict_proba loaded texts = predict_proba even_pipeline texts /\
      forall threshold,
        predict_label loaded texts threshold
        = predict_label even_pipeline texts threshold.
Proof.
  destruct (@save_load_round_trip even_joblib even_pipeline models ∅
              even_pipeline_faithful) as [Hreturns Hloads].
  split; [exact (Hreturns models_writable)|].
  exact (Hloads (truediv models (u "model.joblib")) _ eq_refl).
Defined.

(** C8 (as amended). Loading a model from a directory fails with
    FileNotFoundError exactly when nothing exists at the artifact path
    [model.joblib] inside it. When a directory stands there, loading
    fails with IsADirectoryError; when a file stands there, the outcome
    is that of unpickling its content, the unpickling error when that
    fails. *)
Theorem load_model_not_found `{Joblib} (model_dir : path) (fs : gmap path node) :
  ((exists e, load_model model_dir fs = Err e /\ ModelNotFoundError e)
   <-> fs !! truediv model_dir (u "model.joblib") = None) /\
  (fs !! truediv model_dir (u "model.joblib") = Some Dir ->
   load_model model_dir fs
   = Err (IsADirectoryError (truediv model_dir (u "model.joblib")))) /\
  (forall content,
     fs !! truediv model_dir (u "model.joblib") = Some (File content) ->
     load_model model_dir fs
     = match deserialize content with
       | Some value => Ok value
       | None => Err UnpicklingError
       end).
Proof.
  unfold load_model, exists_, joblib_load.
  destruct (fs !! truediv model_dir (u "model.joblib")) as [[|content]|] eqn:E.
  - rewrite bool_decide_eq_true_2 by eauto. simpl.
    split_and!; [|done|done]. split; [|done]. by intros (e & [= <-] & []).
  - rewrite bool_decide_eq_true_2 by eauto. simpl.
    split_and!; [|done|by intros ? [= <-]]. split; [|done].
    destruct (deserialize content); by intros (e & [= <-] & []).
  - rewrite bool_decide_eq_false_2 by (by intros [? ?]). simpl.
    split_and!; [|done|done]. split; [done|]. intros _. eexists. by split.
Qed.

(** A directory stands at the artifact path: no artifact file exists,
    and loading fails, but with IsADirectoryError. *)
Lemma load_model_directory_at_artifact_path :
  ~ (forall (model_dir : path) (fs : gmap path node),
       (exists e, @load_model even_joblib model_dir fs = Err e /\
                  ModelNotFoundError e)
       <-> ~ artifact_file fs model_dir).
Proof.
  intros Hall.
  destruct (proj2 (Hall models disk_with_directory)) as (e & He & Hkind).
  - intros [content Hfile]. vm_compute in Hfile. discriminate Hfile.
  - vm_compute in He. injection He as <-. exact Hkind.
Qed.

(** C2. [predict_label] gives each text the label 1 exactly when its
    probability from [predict_proba] is greater than or equal to the
    threshold, and 0 otherwise; a text of probability exactly 0.5 gets 1
    at the threshold 0.5 and 0 at the threshold 0.51. *)
Theorem predict_label_threshold (pipeline : Pipeline) (texts : list str)
    (probs : list float) :
  predict_proba pipeline texts = Ok probs ->
  (forall threshold, exists labels,
      predict_label pipeline texts threshold = Ok labels /\
      Forall2 (fun p l =>
                 (l = 1 <-> PrimFloat.leb threshold p = true) /\
                 (l = 0 <-> PrimFloat.leb threshold p = false))
              probs labels) /\
  (forall i, probs !! i = Some 0.5%float ->
     (exists labels, predict_label pipeline texts 0.5 = Ok labels /\
                     labels !! i = Some 1) /\
     (exists labels, predict_label pipeline texts threshold_0_51 = Ok labels /\
                     labels !! i = Some 0)).
Proof.
  intros Hp. unfold predict_label. rewrite Hp. split.
  - intros threshold. eexists. split; [reflexivity|].
    apply Forall2_fmap_r, Forall_Forall2_diag, Forall_forall.
    intros p _. simpl.
    destruct (PrimFloat.leb threshold p); repeat split; congruence.
  - intros i Hi. split; eexists; (split; [reflexivity|]);
      by rewrite list_lookup_fmap, Hi.
Qed.

Lemma predict_label_threshold_even :
  (forall threshold, exists labels,
      predict_label even_pipeline [u "breaking  news"] threshold = Ok labels /\
      Forall2 (fun p l =>
                 (l = 1 <-> PrimFloat.leb threshold p = true) /\
                 (l = 0 <-> PrimFloat.leb threshold p = false))
              [0.5%float] labels) /\
  (forall i, [0.5%float] !! i = Some 0.5%float ->
     (exists labels,
         predict_label even_pipeline [u "breaking  news"] 0.5 = Ok labels /\
         labels !! i = Some 1) /\
     (exists labels,
         predict_label even_pipeline [u "breaking  news"] threshold_0_51 = Ok labels /\
         labels !! i = Some 0)).
Proof.
  apply (predict_label_threshold even_pipeline [u "breaking  news"] [0.5%float]).
  reflexivity.
Defined.

(** C3 (as amended). [predict_proba] and [predict_label] have no case of
    their own for an empty batch: they hand the empty list to the
    pipeline. They return the empty list when the pipeline returns a
    probability matrix without rows, and fail with the pipeline's error
    when it rejects the empty batch. *)
Theorem predict_empty_batch (pipeline : Pipeline) (threshold : float) :
  (forall a, pipeline_predict_proba pipeline [] = Ok a ->
             rows a = [] -> (1 < ncols a)%nat ->
             predict_proba pipeline [] = Ok [] /\
             predict_label pipeline [] threshold = Ok []) /\
  (forall e, pipeline_predict_proba pipeline [] = Err e ->
             predict_proba pipeline [] = Err e /\
             predict_label pipeline [] threshold = Err e).
Proof.
  unfold predict_label, predict_proba. simpl preprocess_texts. split.
  - intros a -> Hrows Hcols. rewrite !bind_Ok. unfold column_1.
    apply Nat.ltb_lt in Hcols. by rewrite Hcols, Hrows.
  - by intros e ->.
Qed.

Lemma predict_empty_batch_samples :
  (predict_proba even_pipeline [] = Ok [] /\
   predict_label even_pipeline [] 0.5 = Ok []) /\
  (predict_proba validating_pipeline [] = Err (ValueError (MinimumSamples 0 1)) /\
   predict_label validating_pipeline [] 0.5
   = Err (ValueError (MinimumSamples 0 1))).
Proof.
  split.
  - apply (proj1 (predict_empty_batch even_pipeline 0.5%float)
             {| ncols := 2; rows := [] |}); [reflexivity|reflexivity|simpl; lia].
  - apply (proj2 (predict_empty_batch validating_pipeline 0.5%float)).
    reflexivity.
Defined.

(** A pipeline that requires at least one sample, as scikit-learn's
    estimators do, makes both functions fail on the empty batch. *)
Lemma predict_empty_batch_can_fail :
  ~ (forall pipeline : Pipeline,
       predict_proba pipeline [] = Ok [] /\
       forall threshold, predict_label pipeline [] threshold = Ok []).
Proof. intros Hall. by destruct (Hall validating_pipeline) as [[=] _]. Qed.

(** ** Further properties of the normaliser *)

Lemma non_space_lstrip (s : str) : non_space (lstrip s) = non_space s.
Proof.
  unfold non_space. induction s as [|c r IH]; simpl; [done|].
  destruct (isspace c) eqn:E; simpl; [exact IH|]. by rewrite E.
Qed.

Lemma non_space_rev (s : str) : non_space (rev s) = rev (non_space s).
Proof. unfold non_space. apply List.filter_rev. Qed.

Lemma non_space_strip (s : str) : non_space (strip s) = non_space s.
Proof.
  unfold strip, rstrip.
  by rewrite non_space_rev, non_space_lstrip, non_space_rev, rev_involutive,
    non_space_lstrip.
Qed.

Lemma non_space_sub (b : bool) (s : str) :
  non_space (whitespace_re_sub_from b s) = non_space s.
Proof.
  unfold non_space. revert b. induction s as [|c r IH]; intros b; simpl; [done|].
  destruct (isspace c) eqn:E; simpl.
  - destruct b; simpl; apply IH.
  - rewrite E. simpl. by rewrite IH.
Qed.

Lemma non_space_normalize (s : str) :
  non_space (normalize_whitespace s) = non_space s.
Proof.
  unfold normalize_whitespace, whitespace_re_sub.
  by rewrite non_space_sub, non_space_strip.
Qed.

Lemma length_lstrip (s : str) : (length (lstrip s) <= length s)%nat.
Proof.
  induction s as [|c r IH]; simpl; [done|].
  destruct (isspace c); simpl; lia.
Qed.

Lemma length_strip (s : str) : (length (strip s) <= length s)%nat.
Proof.
  unfold strip, rstrip. rewrite length_rev.
  pose proof (length_lstrip (rev (lstrip s))) as H1.
  pose proof (length_lstrip s) as H2.
  rewrite length_rev in H1. lia.
Qed.

Lemma length_sub (b : bool) (s : str) :
  (length (whitespace_re_sub_from b s) <= length s)%nat.
Proof.
  revert b. induction s as [|c r IH]; intros b; simpl; [done|].
  destruct (isspace c); [destruct b|]; simpl;
    try (pose proof (IH true)); try (pose proof (IH false)); lia.
Qed.

Lemma non_space_nil_all_space (s : str) : non_space s = [] <-> all_space s.
Proof.
  unfold non_space, all_space. induction s as [|c r IH]; simpl.
  - split; [constructor|done].
  - destruct (isspace c) eqn:E; simpl.
    + rewrite IH. split; [by constructor|by inversion 1].
    + split; [done|]. inversion 1; congruence.
Qed.

Lemma lstrip_all_space (s : str) : all_space s -> lstrip s = [].
Proof. induction 1 as [|c r Hc _ IH]; simpl; [done|]. by rewrite Hc. Qed.

Lemma single_spaced_non_space (s : str) : single_spaced s -> non_space s <> [].
Proof.
  intros H. destruct (single_spaced_head s H) as (c & r & -> & Hc).
  unfold non_space. simpl. by rewrite Hc.
Qed.

(** X1. The normaliser keeps every character that is not whitespace,
    in order, and never makes a text longer. *)
Theorem normalize_whitespace_keeps_characters (s : str) :
  non_space (normalize_whitespace s) = non_space s /\
  (length (normalize_whitespace s) <= length s)%nat.
Proof.
  split; [apply non_space_normalize|].
  unfold normalize_whitespace, whitespace_re_sub.
  pose proof (length_sub false (strip s)). pose proof (length_strip s). lia.
Qed.

(** X2. The normalised text is empty exactly when the text holds
    nothing but whitespace. *)
Theorem normalize_whitespace_empty (s : str) :
  normalize_whitespace s = [] <-> all_space s.
Proof.
  rewrite <- non_space_nil_all_space, <- non_space_normalize.
  destruct (normalize_whitespace_shape s) as [->|H]; [done|].
  split; [intros E; by rewrite E|].
  intros E. by destruct (single_spaced_non_space _ H).
Qed.

Lemma squeeze_app (p : position) (a b : str) :
  squeeze p (a ++ b) = squeeze p a ++ squeeze (advance p a) b.
Proof.
  revert p. induction a as [|c r IH]; intros p; simpl; [done|].
  destruct (isspace c); [apply IH|].
  destruct p; simpl; by rewrite IH.
Qed.

Lemma squeeze_all_space (p : position) (w : str) : all_space w -> squeeze p w = [].
Proof.
  intros Hw. revert p. induction Hw as [|c r Hc _ IH]; intros p; simpl; [done|].
  rewrite Hc. apply IH.
Qed.

Lemma advance_all_space (p : position) (w : str) :
  all_space w -> w <> [] -> advance p w = after_space p.
Proof.
  intros Hw. revert p. induction Hw as [|c r Hc Hr IH]; intros p Hne; [done|].
  simpl. rewrite Hc. destruct r as [|c' r']; [done|].
  rewrite IH by done. by destruct p.
Qed.

Lemma squeeze_lstrip (s : str) : squeeze AtStart (lstrip s) = squeeze AtStart s.
Proof.
  induction s as [|c r IH]; simpl; [done|].
  destruct (isspace c) eqn:E; [exact IH|]. simpl. by rewrite E.
Qed.

Lemma lstrip_split (l : str) : exists w, all_space w /\ l = w ++ lstrip l.
Proof.
  induction l as [|c r (w & Hw & IH)]; simpl.
  - exists []. split; [constructor|done].
  - destruct (isspace c) eqn:E.
    + exists (c :: w). split; [by constructor|]. simpl. by rewrite <- IH.
    + exists []. split; [constructor|done].
Qed.

Lemma rstrip_split (t : str) : exists w, all_space w /\ t = rstrip t ++ w.
Proof.
  destruct (lstrip_split (rev t)) as (w & Hw & Ht).
  exists (rev w). split.
  - by apply List.Forall_rev.
  - unfold rstrip. rewrite <- rev_app_distr, <- Ht. by rewrite rev_involutive.
Qed.

Lemma squeeze_rstrip (p : position) (t : str) : squeeze p (rstrip t) = squeeze p t.
Proof.
  destruct (rstrip_split t) as (w & Hw & Ht).
  rewrite Ht at 2. rewrite squeeze_app, (squeeze_all_space _ w Hw).
  by rewrite app_nil_r.
Qed.

Lemma squeeze_strip (s : str) : squeeze AtStart (strip s) = squeeze AtStart s.
Proof. unfold strip. by rewrite squeeze_rstrip, squeeze_lstrip. Qed.

Lemma sub_squeeze (t : str) :
  no_trailing_space t ->
  whitespace_re_sub_from false t = squeeze InWord t /\
  (t <> [] -> SPACE :: whitespace_re_sub_from true t = squeeze InGap t).
Proof.
  induction t as [|c r IH]; intros Hlast; [done|].
  assert (Hc : isspace c = true -> r <> []).
  { intros Ec ->. unfold no_trailing_space in Hlast. simpl in Hlast. congruence. }
  assert (Hr : no_trailing_space r).
  { destruct r; [apply isspace_0|]. by eapply no_trailing_space_tail. }
  destruct (IH Hr) as [IH1 IH2]. simpl.
  destruct (isspace c) eqn:Ec.
  - split; [|intros _]; by apply IH2, Hc.
  - split; [|intros _]; by rewrite IH1.
Qed.

(** The normaliser writes the words of the text with one space between
    them. *)
Lemma normalize_whitespace_squeeze (s : str) :
  normalize_whitespace s = squeeze AtStart s.
Proof.
  rewrite <- squeeze_strip. unfold normalize_whitespace, whitespace_re_sub.
  destruct (strip_shape s) as [->|(c & r & -> & Hc & Hl)]; [done|].
  rewrite (proj1 (sub_squeeze _ Hl)). simpl. by rewrite Hc.
Qed.

Lemma advance_start_all_space (w : str) :
  all_space w -> advance AtStart w = AtStart.
Proof. induction 1 as [|c r Hc _ IH]; simpl; [done|]. by rewrite Hc. Qed.

Lemma advance_not_start (p : position) (s : str) :
  p <> AtStart -> advance p s <> AtStart.
Proof.
  revert p. induction s as [|c r IH]; intros p Hp; simpl; [done|].
  apply IH. destruct (isspace c); [by destruct p|done].
Qed.

Lemma advance_after_word (a : str) :
  squeeze AtStart a <> [] -> after_space (advance AtStart a) = InGap.
Proof.
  intros Ha. assert (Hp : advance AtStart a <> AtStart).
  { induction a as [|c r IH]; simpl in *; [done|].
    destruct (isspace c); [by apply IH|by apply advance_not_start]. }
  by destruct (advance AtStart a).
Qed.

Lemma squeeze_gap (b : str) :
  squeeze AtStart b <> [] -> squeeze InGap b = SPACE :: squeeze AtStart b.
Proof.
  induction b as [|c r IH]; simpl; [done|].
  destruct (isspace c); [exact IH|done].
Qed.

Lemma squeeze_word (s : str) :
  Forall (fun c => isspace c = false) s ->
  squeeze AtStart s = s /\ squeeze InWord s = s.
Proof.
  induction 1 as [|c r Hc _ [_ IH]]; simpl; [done|].
  by rewrite Hc, IH.
Qed.

(** C5. The text normaliser is idempotent; its result is empty or starts
    and ends with a character that is not whitespace and has every run of
    whitespace replaced by one space; and ["  a   b "] becomes ["a b"].
    The result is read off the text: whitespace at the start and at the
    end of the text is dropped, a run of whitespace between two parts
    that each hold a word becomes one space between their normalised
    texts, and a text without whitespace is returned as it is. *)
Theorem normalize_whitespace_idempotent :
  (forall s : str,
      normalize_whitespace (normalize_whitespace s) = normalize_whitespace s) /\
  (forall s : str,
      normalize_whitespace s = [] \/ single_spaced (normalize_whitespace s)) /\
  normalize_whitespace (u "  a   b ") = u "a b" /\
  (forall w s : str,
      all_space w -> normalize_whitespace (w ++ s) = normalize_whitespace s) /\
  (forall s w : str,
      all_space w -> normalize_whitespace (s ++ w) = normalize_whitespace s) /\
  (forall a w b : str,
      all_space w -> w <> [] ->
      normalize_whitespace a <> [] -> normalize_whitespace b <> [] ->
      normalize_whitespace (a ++ w ++ b)
      = normalize_whitespace a ++ [SPACE] ++ normalize_whitespace b) /\
  (forall s : str,
      Forall (fun c => isspace c = false) s -> normalize_whitespace s = s).
Proof.
  split_and!.
  - intros s. apply normalize_whitespace_fixed, normalize_whitespace_shape.
  - apply normalize_whitespace_shape.
  - reflexivity.
  - intros w s Hw. rewrite !normalize_whitespace_squeeze, squeeze_app.
    by rewrite (squeeze_all_space _ w Hw), (advance_start_all_space w Hw).
  - intros s w Hw. rewrite !normalize_whitespace_squeeze, squeeze_app.
    by rewrite (squeeze_all_space _ w Hw), app_nil_r.
  - intros a w b Hw Hne. rewrite !normalize_whitespace_squeeze. intros Ha Hb.
    rewrite !squeeze_app, (squeeze_all_space _ w Hw).
    rewrite (advance_all_space _ w Hw Hne), (advance_after_word a Ha).
    by rewrite (squeeze_gap b Hb).
  - intros s Hs. rewrite normalize_whitespace_squeeze.
    apply (squeeze_word s Hs).
Qed.

(** X3. The amount and the kind of whitespace between two parts of a
    text do not matter: replacing a run of whitespace by another run
    leaves the normalised text unchanged. *)
Theorem normalize_whitespace_run_irrelevant (a w1 w2 b : str) :
  all_space w1 -> w1 <> [] ->
  all_space w2 -> w2 <> [] ->
  normalize_whitespace (a ++ w1 ++ b) = normalize_whitespace (a ++ w2 ++ b).
Proof.
  intros H1 N1 H2 N2. rewrite !normalize_whitespace_squeeze, !squeeze_app.
  rewrite (squeeze_all_space _ w1 H1), (squeeze_all_space _ w2 H2).
  by rewrite (advance_all_space _ w1 H1 N1), (advance_all_space _ w2 H2 N2).
Qed.

Lemma normalize_whitespace_run_irrelevant_tab :
  normalize_whitespace (u "breaking" ++ [9%N; 10%N] ++ u "news")
  = normalize_whitespace (u "breaking" ++ u "   " ++ u "news").
Proof.
  apply (normalize_whitespace_run_irrelevant (u "breaking") [9%N; 10%N]
           (u "   ") (u "news"));
    solve [discriminate | repeat constructor].
Defined.

(** ** Further properties of the model store and the inference functions *)

Lemma preprocess_texts_idempotent (texts : list str) :
  preprocess_texts (preprocess_texts texts) = preprocess_texts texts.
Proof.
  unfold preprocess_texts. rewrite map_map. apply map_ext. intros s.
  apply normalize_whitespace_fixed, normalize_whitespace_shape.
Qed.

(** X4. Normalising the texts beforehand changes no prediction: the
    inference functions give the same result on raw and on already
    normalised texts. *)
Theorem predict_on_normalized_texts (pipeline : Pipeline) (texts : list str)
    (threshold : float) :
  predict_proba pipeline (preprocess_texts texts) = predict_proba pipeline texts /\
  predict_label pipeline (preprocess_texts texts) threshold
  = predict_label pipeline texts threshold.
Proof.
  assert (Hp : predict_proba pipeline (preprocess_texts texts)
               = predict_proba pipeline texts).
  { unfold predict_proba. by rewrite preprocess_texts_idempotent. }
  split; [exact Hp|]. unfold predict_label. by rewrite Hp.
Qed.

Lemma SFleb_trans (a b c : spec_float) :
  SFleb a b = true -> SFleb b c = true -> SFleb a c = true.
Proof.
  unfold SFleb, SFcompare.
  destruct a as [sa|sa| |sa ma ea], b as [sb|sb| |sb mb eb], c as [sc|sc| |sc mc ec];
    repeat match goal with s : bool |- _ => destruct s end;
    try done;
    change (Pos.compare_cont Eq) with Pos.compare;
    repeat match goal with
      | |- context [Z.compare ?x ?y] => destruct (Z.compare_spec x y)
      | |- context [Pos.compare ?x ?y] => destruct (Pos.compare_spec x y)
      end; simpl; try done; try lia.
Qed.

Lemma float_leb_trans (x y z : float) :
  PrimFloat.leb x y = true -> PrimFloat.leb y z = true -> PrimFloat.leb x z = true.
Proof. rewrite !leb_spec. apply SFleb_trans. Qed.

(** X5. Raising the threshold never turns a label 0 into a label 1: at
    a threshold that is greater or equal, every text gets a label that
    is less or equal. *)
Theorem predict_label_monotone (pipeline : Pipeline) (texts : list str)
    (low high : float) (labels_low labels_high : list Z) :
  PrimFloat.leb low high = true ->
  predict_label pipeline texts low = Ok labels_low ->
  predict_label pipeline texts high = Ok labels_high ->
  Forall2 (fun at_low at_high => at_high <= at_low) labels_low labels_high.
Proof.
  intros Hle. unfold predict_label.
  destruct (predict_proba pipeline texts) as [probs|e]; [|done].
  rewrite !bind_Ok. intros [= <-] [= <-].
  apply Forall2_fmap, Forall_Forall2_diag, Forall_forall. intros p _. simpl.
  destruct (PrimFloat.leb high p) eqn:Eh; [|destruct (PrimFloat.leb low p); lia].
  by rewrite (float_leb_trans low high p Hle Eh).
Qed.

Lemma predict_label_monotone_even :
  Forall2 (fun at_low at_high => at_high <= at_low) [1] [0].
Proof.
  apply (predict_label_monotone even_pipeline [u "breaking  news"]
           0.5%float threshold_0_51 [1] [0]); reflexivity.
Defined.

Section store_effects.
Context `{Joblib}.

(** What [mkdir_from] does when it returns: no file stood on the way,
    every directory on the way exists afterwards, and nothing else has
    changed. *)
Lemma mkdir_from_effect (rest : list str) (walked : path)
    (fs fs1 : gmap path node) :
  mkdir_from walked rest fs = Ok fs1 ->
  (forall k content, (0 < k <= length rest)%nat ->
                     fs !! (walked ++ take k rest) <> Some (File content)) /\
  (forall k, (0 < k <= length rest)%nat ->
             fs1 !! (walked ++ take k rest) = Some Dir) /\
  (forall q, fs1 !! q = fs !! q \/
             (fs !! q = None /\ fs1 !! q = Some Dir /\
              exists k, (0 < k <= length rest)%nat /\ q = walked ++ take k rest)).
Proof.
  revert walked fs. induction rest as [|name rest IH]; intros walked fs.
  - simpl. intros [= <-]. repeat split; [intros; lia|intros; lia|by left].
  - assert (Hstep : forall k, (walked ++ [name]) ++ take k rest
                              = walked ++ take (S k) (name :: rest)).
    { intros k. by rewrite <- app_assoc. }
    assert (Hone : walked ++ take 1 (name :: rest) = walked ++ [name]).
    { simpl. by rewrite take_0. }
    simpl.
    destruct (fs !! truediv walked name) as [[|content]|] eqn:Ecur;
      unfold truediv in *; [| |]; [|done|].
    + intros Hmk. destruct (IH _ _ Hmk) as (Hfile & Hdir & Hframe).
      repeat split.
      * intros [|k] content Hk; [lia|]. destruct k as [|k].
        -- rewrite Hone. intros Hx.
           by pose proof (eq_trans (eq_sym Ecur) Hx).
        -- rewrite <- Hstep. apply Hfile. simpl in Hk. lia.
      * intros [|k] Hk; [lia|]. destruct k as [|k].
        -- rewrite Hone.
           destruct (Hframe (walked ++ [name])) as [Hs|(Hn & _)].
           ++ exact (eq_trans Hs Ecur).
           ++ by pose proof (eq_trans (eq_sym Ecur) Hn).
        -- rewrite <- Hstep. apply Hdir. simpl in Hk. lia.
      * intros q. destruct (Hframe q) as [Hq|(Hn & Hd & k & Hk & ->)]; [by left|].
        right. repeat split; [done|done|]. exists (S k).
        split; [simpl; lia|apply Hstep].
    + intros Hmk. destruct (IH _ _ Hmk) as (Hfile & Hdir & Hframe).
      assert (Hlonger : forall k, (0 < k <= length rest)%nat ->
                                  (walked ++ [name]) ++ take k rest <> walked ++ [name]).
      { intros k Hk Heq. apply (f_equal length) in Heq.
        rewrite !length_app, length_take in Heq. simpl in Heq. lia. }
      assert (Hnew : fs1 !! (walked ++ [name]) = Some Dir).
      { destruct (Hframe (walked ++ [name])) as [Hs|(Hn & _)].
        - rewrite Hs. apply lookup_insert_eq.
        - by rewrite lookup_insert_eq in Hn. }
      repeat split.
      * intros [|k] content Hk; [lia|]. destruct k as [|k].
        -- rewrite Hone. intros Hx.
           by pose proof (eq_trans (eq_sym Ecur) Hx).
        -- rewrite <- Hstep. simpl in Hk.
           specialize (Hfile (S k) content ltac:(lia)).
           rewrite lookup_insert_ne in Hfile; [done|].
           intros Heq. by apply (Hlonger (S k) ltac:(lia)).
      * intros [|k] Hk; [lia|]. destruct k as [|k].
        -- rewrite Hone. exact Hnew.
        -- rewrite <- Hstep. apply Hdir. simpl in Hk. lia.
      * intros q. destruct (decide (q = walked ++ [name])) as [->|Hq].
        -- right. split; [exact Ecur|]. split; [exact Hnew|].
           exists 1%nat. split; [simpl; lia|by rewrite Hone].
        -- destruct (Hframe q) as [Hsame|(Hn & Hd & k & Hk & ->)].
           ++ left. rewrite Hsame. by apply lookup_insert_ne.
           ++ right. rewrite lookup_insert_ne in Hn by done.
              repeat split; [done|done|]. exists (S k).
              split; [simpl; lia|apply Hstep].
Qed.

(** On a path whose directories all exist, [mkdir_from] changes
    nothing. *)
Lemma mkdir_from_existing (rest : list str) (walked : path) (fs : gmap path node) :
  (forall k, (0 < k <= length rest)%nat ->
             fs !! (walked ++ take k rest) = Some Dir) ->
  mkdir_from walked rest fs = Ok fs.
Proof.
  revert walked. induction rest as [|name rest IH]; intros walked Hdirs; [done|].
  simpl. unfold truediv.
  assert (Hcur : fs !! (walked ++ [name]) = Some Dir).
  { specialize (Hdirs 1%nat ltac:(simpl; lia)). simpl in Hdirs.
    by rewrite take_0 in Hdirs. }
  replace (fs !! (walked ++ [name])) with (Some Dir).
  apply IH. intros k Hk. rewrite <- app_assoc. simpl.
  apply (Hdirs (S k)). simpl. lia.
Qed.

Lemma artifact_not_on_the_way (model_dir : path) (k : nat) :
  truediv model_dir (u "model.joblib") <> [] ++ take k model_dir.
Proof.
  intros Heq. apply (f_equal length) in Heq. unfold truediv in Heq.
  simpl in Heq. rewrite length_app, length_take in Heq. simpl in Heq. lia.
Qed.

(** What [save_model] does when it returns. *)
Lemma save_model_effect (pipeline : Pipeline) (model_dir : path)
    (fs fs' : gmap path node) (model_path : path) :
  save_model pipeline model_dir fs = Ok (model_path, fs') ->
  exists fs1,
    mkdir_from [] model_dir fs = Ok fs1 /\
    fs1 !! model_path <> Some Dir /\
    model_path = truediv model_dir (u "model.joblib") /\
    fs' = <[model_path := File (serialize pipeline)]> fs1.
Proof.
  unfold save_model, mkdir.
  destruct (mkdir_from [] model_dir fs) as [fs1|e] eqn:Emk; [|done].
  rewrite bind_Ok. unfold joblib_dump.
  destruct (fs1 !! truediv model_dir (u "model.joblib")) as [[|content]|] eqn:E;
    [done| |]; rewrite bind_Ok; intros [= <- <-]; exists fs1;
    (split; [done|]; split; [|done]); intros Hd;
    pose proof (eq_trans (eq_sym E) Hd); done.
Qed.

End store_effects.

(** X6. On a file system whose root is no entry of its own,
    [save_model] returns exactly when no file stands on the way to the
    model directory and the artifact path is not a directory. *)
Theorem save_model_returns_iff `{Joblib} (pipeline : Pipeline) (model_dir : path)
    (fs : gmap path node) :
  fs !! ([] : path) = None ->
  (exists saved, save_model pipeline model_dir fs = Ok saved)
  <-> writable fs model_dir.
Proof.
  intros Hroot. split.
  - intros [[model_path fs'] Hsave].
    destruct (save_model_effect _ _ _ _ _ Hsave) as (fs1 & Hmk & Hnd & -> & _).
    destruct (mkdir_from_effect _ _ _ _ Hmk) as (Hfile & _ & Hframe).
    split.
    + intros k content.
      destruct (decide (0 < k <= length model_dir)%nat) as [Hk|Hk];
        [exact (Hfile k content Hk)|].
      assert (Hno : fs !! ([] : path) <> Some (File content)).
      { intros Hx. by pose proof (eq_trans (eq_sym Hroot) Hx). }
      destruct k as [|k]; [by rewrite take_0|].
      destruct model_dir as [|name rest]; [done|].
      rewrite take_ge by lia.
      rewrite <- (firstn_all (name :: rest)).
      apply (Hfile (length (name :: rest)) content). simpl. lia.
    + intros Hd.
      destruct (Hframe (truediv model_dir (u "model.joblib")))
        as [Hsame|(Hnone & _)].
      * apply Hnd. exact (eq_trans Hsame Hd).
      * by pose proof (eq_trans (eq_sym Hnone) Hd).
  - intros Hw. destruct (save_model_returns pipeline model_dir fs Hw) as [fs' Hs].
    by eexists.
Qed.

Lemma save_model_returns_iff_models :
  (exists saved, @save_model even_joblib even_pipeline models ∅ = Ok saved)
  <-> writable ∅ models.
Proof.
  apply (@save_model_returns_iff even_joblib even_pipeline models ∅).
  reflexivity.
Defined.

(** X7. [save_model] removes and changes no entry other than the
    artifact: every other path holds what it held before, or is a
    directory on the way to the model directory that did not exist. *)
Theorem save_model_frame `{Joblib} (pipeline : Pipeline) (model_dir : path)
    (fs fs' : gmap path node) (model_path q : path) :
  save_model pipeline model_dir fs = Ok (model_path, fs') ->
  q <> model_path ->
  fs' !! q = fs !! q \/
  (fs !! q = None /\ fs' !! q = Some Dir /\
   exists k, (0 < k <= length model_dir)%nat /\ q = take k model_dir).
Proof.
  intros Hsave Hq.
  destruct (save_model_effect _ _ _ _ _ Hsave) as (fs1 & Hmk & _ & _ & ->).
  destruct (mkdir_from_effect _ _ _ _ Hmk) as (_ & _ & Hframe).
  rewrite lookup_insert_ne by done.
  destruct (Hframe q) as [Hsame|(Hn & Hd & k & Hk & ->)]; [by left|right].
  repeat split; [done|done|]. by exists k.
Qed.

Lemma save_model_frame_models :
  disk_with_model !! csv_path = disk_with_data !! csv_path \/
  (disk_with_data !! csv_path = None /\
   disk_with_model !! csv_path = Some Dir /\
   exists k, (0 < k <= length models)%nat /\ csv_path = take k models).
Proof.
  apply (@save_model_frame even_joblib even_pipeline models
           disk_with_data disk_with_model
           (truediv models (u "model.joblib")) csv_path).
  - reflexivity.
  - discriminate.
Defined.

(** X8. The last writer wins: after one [save_model] into a directory
    a second one into the same directory returns, and [load_model] then
    yields a pipeline that predicts as the second one, whose
    serialisation is faithful. *)
Theorem save_model_twice `{Joblib} (first second : Pipeline) (model_dir : path)
    (fs fs1 : gmap path node) (model_path : path) :
  faithful second ->
  save_model first model_dir fs = Ok (model_path, fs1) ->
  exists fs2 loaded,
    save_model second model_dir fs1 = Ok (model_path, fs2) /\
    load_model model_dir fs2 = Ok loaded /\
    forall texts,
      predict_proba loaded texts = predict_proba second texts /\
      forall threshold,
        predict_label loaded texts threshold
        = predict_label second texts threshold.
Proof.
  intros (loaded & Hload & Hsame) Hsave.
  destruct (save_model_effect _ _ _ _ _ Hsave) as (fs0 & Hmk & _ & -> & ->).
  destruct (mkdir_from_effect _ _ _ _ Hmk) as (_ & Hdir & _).
  set (model_path := truediv model_dir (u "model.joblib")).
  set (fs1 := <[model_path := File (serialize first)]> fs0).
  assert (Hmk1 : mkdir_from [] model_dir fs1 = Ok fs1).
  { apply mkdir_from_existing. intros k Hk. unfold fs1.
    rewrite lookup_insert_ne; [by apply Hdir|].
    apply artifact_not_on_the_way. }
  exists (<[model_path := File (serialize second)]> fs1), loaded.
  split; [|split].
  - unfold save_model, mkdir. rewrite Hmk1, bind_Ok. unfold joblib_dump.
    fold model_path. unfold fs1 at 1. by rewrite lookup_insert_eq.
  - rewrite (load_model_artifact _ _ (serialize second)); [by rewrite Hload|].
    apply lookup_insert_eq.
  - intros texts.
    assert (Hp : predict_proba loaded texts = predict_proba second texts).
    { unfold predict_proba. by rewrite Hsame. }
    split; [exact Hp|]. intros threshold. unfold predict_label. by rewrite Hp.
Qed.

Lemma save_model_twice_models :
  exists fs2 loaded,
    @save_model even_joblib even_pipeline models
      (<[truediv models (u "model.joblib") := File [Byte.x80; Byte.x04]]>
         (<[models := Dir]> ∅))
    = Ok (truediv models (u "model.joblib"), fs2) /\
    @load_model even_joblib models fs2 = Ok loaded /\
    forall texts,
      predict_proba loaded texts = predict_proba even_pipeline texts /\
      forall threshold,
        predict_label loaded texts threshold
        = predict_label even_pipeline texts threshold.
Proof.
  apply (@save_model_twice even_joblib validating_pipeline even_pipeline models ∅
           _ (truediv models (u "model.joblib")) even_pipeline_faithful).
  reflexivity.
Defined.

(** X9. Training never looks at the validation data to fit: two runs
    of [train_model] on the same training data return the same fitted
    pipeline, whatever the validation data; and training on texts
    normalised beforehand is the same run. *)
Theorem train_model_no_leakage `{SklearnFit} (X_train : list str) (y_train : Series)
    (X_val X_val' : list str) (y_val y_val' : Series)
    (max_features : Z) (C : float) (n_jobs : Z)
    (pipeline pipeline' : Pipeline) (metrics metrics' : Metrics) :
  train_model X_train y_train X_val y_val max_features C n_jobs
  = Ok (pipeline, metrics) ->
  train_model X_train y_train X_val' y_val' max_features C n_jobs
  = Ok (pipeline', metrics') ->
  pipeline = pipeline' /\
  fit (build_pipeline max_features C n_jobs) (preprocess_texts X_train) y_train
  = Ok pipeline /\
  train_model (preprocess_texts X_train) y_train (preprocess_texts X_val) y_val
    max_features C n_jobs
  = Ok (pipeline, metrics).
Proof.
  unfold train_model. rewrite !preprocess_texts_idempotent.
  destruct (fit _ (preprocess_texts X_train) y_train) as [fitted|e]; [|done].
  rewrite !bind_Ok. intros H1 H2.
  assert (fitted = pipeline) as ->.
  { destruct (pipeline_predict fitted (preprocess_texts X_val)); [|done].
    rewrite bind_Ok in H1.
    destruct (classification_report y_val a); [|done]. rewrite bind_Ok in H1.
    destruct (accuracy_score y_val a); [|done]. rewrite bind_Ok in H1.
    by injection H1. }
  assert (pipeline = pipeline') as <-.
  { destruct (pipeline_predict pipeline (preprocess_texts X_val')); [|done].
    rewrite bind_Ok in H2.
    destruct (classification_report y_val' a); [|done]. rewrite bind_Ok in H2.
    destruct (accuracy_score y_val' a); [|done]. rewrite bind_Ok in H2.
    by injection H2. }
  done.
Qed.

Lemma train_model_no_leakage_even :
  even_pipeline = even_pipeline /\
  @fit even_fit (build_pipeline 50000 1.5 (-1))
    (preprocess_texts [u "a  b"; u " c "]) (SInt64 [1; 0])
  = Ok even_pipeline /\
  @train_model even_fit (preprocess_texts [u "a  b"; u " c "]) (SInt64 [1; 0])
    (preprocess_texts [u "d"]) (SInt64 [1]) 50000 1.5 (-1)
  = Ok (even_pipeline, @Build_Metrics even_fit 0.5%float 1%nat).
Proof.
  apply (@train_model_no_leakage even_fit [u "a  b"; u " c "] (SInt64 [1; 0])
           [u "d"] [u "e"; u "f"] (SInt64 [1]) (SInt64 [0; 1])
           50000 1.5%float (-1) even_pipeline even_pipeline
           (@Build_Metrics even_fit 0.5%float 1%nat)
           (@Build_Metrics even_fit 0.5%float 2%nat));
    reflexivity.
Defined.

(** ** Further properties of the dataset loader and the splitter *)

Section loader_shape.
Context `{Pandas}.

Lemma getitem_missing (df : DataFrame) (col : str) :
  col ∉ columns df -> getitem df col = Err (KeyError col).
Proof.
  induction df as [|[name s] df IH]; simpl; [done|].
  intros Hn. rewrite decide_False.
  - apply IH. intros Hin. apply Hn. by apply list_elem_of_further.
  - intros ->. apply Hn. apply list_elem_of_here.
Qed.

Lemma load_dataset_csv_same_column (csv_path : path) (col : str) (df : DataFrame) :
  read_csv csv_path = Ok df ->
  col ∈ columns df ->
  load_dataset_csv csv_path col col = Err (AttributeError "dtype").
Proof.
  intros Hread Hin. destruct (columns_getitem df col Hin) as [X HX].
  unfold load_dataset_csv. rewrite Hread, bind_Ok.
  rewrite !bool_decide_eq_false_2 by (intros Hn; by apply Hn).
  simpl orb. cbv iota. rewrite HX, !bind_Ok.
  by rewrite decide_True.
Qed.

Lemma mapM_length {A B} (f : A -> result B) (l : list A) (k : list B) :
  mapM f l = Ok k -> length k = length l.
Proof.
  revert k. induction l as [|x l IH]; intros k; simpl; [by intros [= <-]|].
  destruct (f x) as [b|e]; [|done]. rewrite bind_Ok.
  destruct (mapM f l) as [k'|e]; [|done]. intros [= <-]. simpl.
  by rewrite (IH k' eq_refl).
Qed.

Lemma astype_int_result (series result : Series) :
  astype_int series = Ok result ->
  exists zs, result = SInt64 zs /\ length zs = Series_len series.
Proof.
  destruct series as [vs|vs|vs|vs]; simpl.
  - intros [= <-]. by exists vs.
  - destruct (mapM int_of_float vs) as [zs|e] eqn:E; [|done].
    intros [= <-]. exists zs. split; [done|]. by eapply mapM_length.
  - intros [= <-]. exists (map Z.b2z vs). split; [done|]. apply length_map.
  - destruct (mapM int_of_object vs) as [zs|e] eqn:E; [|done].
    intros [= <-]. exists zs. split; [done|]. by eapply mapM_length.
Qed.

Lemma _normalize_labels_result (series result : Series) :
  _normalize_labels series = Ok result ->
  exists zs, result = SInt64 zs /\ length zs = Series_len series.
Proof.
  destruct series as [vs|vs|vs|vs]; try apply astype_int_result.
  unfold _normalize_labels. intros Hr.
  destruct (astype_int_result _ _ Hr) as (zs & -> & Hlen).
  exists zs. split; [done|]. simpl in Hlen. by rewrite length_map in Hlen.
Qed.

Lemma astype_str_result (series : Series) :
  exists texts, astype_str series = SObject (map PyStr texts) /\
                length texts = Series_len series.
Proof.
  destruct series as [vs|vs|vs|vs]; simpl; eexists;
    (split; [reflexivity|apply length_map]).
Qed.

Lemma length_select {A} (mask : list bool) (l : list A) :
  (length mask <= length l)%nat ->
  length (select mask l) = length (List.filter id mask).
Proof.
  revert l. induction mask as [|b mask IH]; intros [|x l]; simpl; try done; try lia.
  intros Hl. destruct b; simpl; rewrite IH; lia.
Qed.

Lemma Series_len_select (mask : list bool) (s : Series) :
  (length mask <= Series_len s)%nat ->
  Series_len (Series_select mask s) = length (List.filter id mask).
Proof. destruct s; simpl; apply length_select. Qed.

Lemma length_complete_rows (text_col label_col : str) (X y : Series) :
  Series_len X = Series_len y ->
  length (complete_rows [(text_col, X); (label_col, y)]) = Series_len X.
Proof.
  intros Hlen. unfold complete_rows. simpl.
  rewrite !length_zip_with, !notna_length, length_replicate. lia.
Qed.

(** What a successful load returns: the text column and the label
    column, in this order, the texts as strings and the labels as
    integers. *)
Lemma load_dataset_csv_two_columns (csv_path : path) (text_col label_col : str)
    (loaded : DataFrame) :
  load_dataset_csv csv_path text_col label_col = Ok loaded ->
  text_col <> label_col /\
  exists df X y texts labels,
    read_csv csv_path = Ok df /\
    getitem df text_col = Ok X /\
    getitem df label_col = Ok y /\
    let mask := complete_rows [(text_col, X); (label_col, y)] in
    astype_str (Series_select mask X) = SObject (map PyStr texts) /\
    _normalize_labels (Series_select mask y) = Ok (SInt64 labels) /\
    loaded = [(text_col, SObject (map PyStr texts)); (label_col, SInt64 labels)].
Proof.
  intros Hload.
  destruct (read_csv csv_path) as [df|e] eqn:Hread;
    [|by unfold load_dataset_csv in Hload; rewrite Hread in Hload].
  destruct (decide (text_col ∈ columns df)) as [Ht|Ht];
    [|by rewrite (load_dataset_csv_absent _ _ _ df Hread (or_introl Ht)) in Hload].
  destruct (decide (label_col ∈ columns df)) as [Hl|Hl];
    [|by rewrite (load_dataset_csv_absent _ _ _ df Hread (or_intror Hl)) in Hload].
  destruct (decide (text_col = label_col)) as [Heq|Hne].
  { subst. by rewrite (load_dataset_csv_same_column _ _ df Hread Ht) in Hload. }
  split; [exact Hne|].
  destruct (columns_getitem df text_col Ht) as [X HX].
  destruct (columns_getitem df label_col Hl) as [y Hy].
  rewrite (load_dataset_csv_present _ _ _ _ _ _ Hread HX Hy Hne) in Hload.
  set (mask := complete_rows _) in *.
  destruct (_normalize_labels (Series_select mask y)) as [labels|e] eqn:El; [|done].
  rewrite bind_Ok in Hload. injection Hload as <-.
  destruct (_normalize_labels_result _ _ El) as (zs & -> & _).
  destruct (astype_str_result (Series_select mask X)) as (texts & Ets & _).
  exists df, X, y, texts, zs. rewrite Ets. by repeat split.
Qed.

End loader_shape.

(** X10. A successful load returns exactly the text column and the
    label column: the texts as strings, the labels as integers, one
    per row of the file in which neither the text nor the label is
    missing. *)
Theorem load_dataset_csv_shape `{Pandas} (csv_path : path)
    (text_col label_col : str) (df loaded : DataFrame) (X y : Series) :
  read_csv csv_path = Ok df ->
  getitem df text_col = Ok X ->
  getitem df label_col = Ok y ->
  Series_len X = Series_len y ->
  load_dataset_csv csv_path text_col label_col = Ok loaded ->
  exists texts labels,
    loaded = [(text_col, SObject (map PyStr texts)); (label_col, SInt64 labels)] /\
    length texts = length labels /\
    length labels
    = length (List.filter id (complete_rows [(text_col, X); (label_col, y)])).
Proof.
  intros Hread HX Hy Hlen Hload.
  destruct (load_dataset_csv_two_columns _ _ _ _ Hload)
    as (Hne & df0 & X0 & y0 & texts & labels & Hread0 & HX0 & Hy0 & Hts & Hls & ->).
  assert (df0 = df) as -> by congruence.
  assert (X0 = X) as -> by congruence.
  assert (y0 = y) as -> by congruence.
  set (mask := complete_rows _) in *.
  assert (Hmask : length mask = Series_len X) by by apply length_complete_rows.
  destruct (_normalize_labels_result _ _ Hls) as (zs & [= <-] & Hzs).
  destruct (astype_str_result (Series_select mask X)) as (ts & Ets & Hts').
  rewrite Ets in Hts. injection Hts as Hts.
  apply (f_equal length) in Hts. rewrite !length_map in Hts.
  rewrite Series_len_select in Hzs, Hts' by lia.
  exists texts, labels. split; [done|]. lia.
Qed.

Lemma load_dataset_csv_shape_blank_text :
  exists texts labels,
    [(u "text", SObject [PyStr (u "hello")]); (u "label", SInt64 [1])]
    = [(u "text", SObject (map PyStr texts)); (u "label", SInt64 labels)] /\
    length texts = length labels /\
    length labels
    = length (List.filter id
        (complete_rows
           [(u "text", SObject [PyNaN; PyStr (u "hello")]);
            (u "label", SObject [PyStr (u "garbage"); PyStr (u "FAKE")])])).
Proof.
  apply (@load_dataset_csv_shape (pandas_reading blank_text_csv) csv_path
           (u "text") (u "label") blank_text_csv); reflexivity.
Defined.

(** X11. Loading and then splitting with the same column names never
    fails for a missing column: every failure of [train_val_split] on
    a loaded frame is a failure of [train_test_split] on the loaded
    texts and labels. *)
Theorem train_val_split_after_load `{Pandas} `{Sklearn} (csv_path : path)
    (text_col label_col : str) (loaded : DataFrame)
    (val_size : float) (random_state : Z) :
  load_dataset_csv csv_path text_col label_col = Ok loaded ->
  exists X y,
    getitem loaded text_col = Ok X /\
    getitem loaded label_col = Ok y /\
    Series_dtype y = int64 /\
    train_val_split loaded text_col label_col val_size random_state
    = ('(X_train, X_val, y_train, y_val) ←
         train_test_split X y val_size y random_state;
       Ok {| X_train := X_train; X_val := X_val;
             y_train := y_train; y_val := y_val |}).
Proof.
  intros Hload.
  destruct (load_dataset_csv_two_columns _ _ _ _ Hload)
    as (Hne & df & X & y & texts & labels & _ & _ & _ & _ & _ & ->).
  exists (SObject (map PyStr texts)), (SInt64 labels).
  unfold train_val_split. simpl.
  rewrite (decide_True (P := text_col = text_col)) by reflexivity.
  rewrite (decide_False (P := text_col = label_col)) by exact Hne.
  rewrite (decide_True (P := label_col = label_col)) by reflexivity.
  by repeat split.
Qed.

Lemma train_val_split_after_load_news :
  exists X y,
    getitem [(u "text", four_texts); (u "label", SInt64 [1; 0; 0; 1])] (u "text")
    = Ok X /\
    getitem [(u "text", four_texts); (u "label", SInt64 [1; 0; 0; 1])] (u "label")
    = Ok y /\
    Series_dtype y = int64 /\
    @train_val_split holdout_first
      [(u "text", four_texts); (u "label", SInt64 [1; 0; 0; 1])]
      (u "text") (u "label") 0.25 42
    = ('(X_train, X_val, y_train, y_val) ←
         @train_test_split holdout_first X y 0.25 y 42;
       Ok {| X_train := X_train; X_val := X_val;
             y_train := y_train; y_val := y_val |}).
Proof.
  apply (@train_val_split_after_load (pandas_reading news_csv) holdout_first
           csv_path (u "text") (u "label")).
  reflexivity.
Defined.

(** X12. On a frame without the text column the splitter raises
    KeyError for the text column, and on a frame with the text column
    but without the label column it raises KeyError for the label
    column, before scikit-learn is called. *)
Theorem train_val_split_missing_column `{Sklearn} (df : DataFrame)
    (text_col label_col : str) (val_size : float) (random_state : Z) :
  (text_col ∉ columns df ->
   train_val_split df text_col label_col val_size random_state
   = Err (KeyError text_col)) /\
  (text_col ∈ columns df -> label_col ∉ columns df ->
   train_val_split df text_col label_col val_size random_state
   = Err (KeyError label_col)).
Proof.
  unfold train_val_split. split.
  - intros Ht. by rewrite (getitem_missing df text_col Ht).
  - intros Ht Hl. destruct (columns_getitem df text_col Ht) as [X ->].
    by rewrite bind_Ok, (getitem_missing df label_col Hl).
Qed.

Lemma train_val_split_missing_column_unlabelled :
  @train_val_split holdout_first unlabelled_csv (u "text") (u "label") 0.25 42
  = Err (KeyError (u "label")).
Proof.
  apply (proj2 (@train_val_split_missing_column holdout_first unlabelled_csv
                  (u "text") (u "label") 0.25%float 42)).
  - apply (bool_decide_unpack _). vm_compute. exact I.
  - apply (bool_decide_unpack _). vm_compute. exact I.
Defined.

(** X13. Normalised labels are integers, one per input label, and
    normalising them again changes nothing. *)
Theorem _normalize_labels_idempotent `{Pandas} (series normalized : Series) :
  _normalize_labels series = Ok normalized ->
  Series_dtype normalized = int64 /\
  Series_len normalized = Series_len series /\
  _normalize_labels normalized = Ok normalized.
Proof.
  intros Hn. destruct (_normalize_labels_result _ _ Hn) as (zs & -> & Hlen).
  by repeat split.
Qed.

Lemma _normalize_labels_idempotent_strings :
  Series_dtype (SInt64 [0; 1]) = int64 /\
  Series_len (SInt64 [0; 1])
  = Series_len (SObject [PyStr (u "TRUE"); PyStr (u "FALSE")]) /\
  @_normalize_labels (pandas_reading news_csv) (SInt64 [0; 1]) = Ok (SInt64 [0; 1]).
Proof.
  apply (@_normalize_labels_idempotent (pandas_reading news_csv)
           (SObject [PyStr (u "TRUE"); PyStr (u "FALSE")])).
  reflexivity.
Defined.

(** X14. Only the text column and the label column of a file matter:
    two files that agree on these two columns load alike, whatever
    their other columns hold. *)
Theorem load_dataset_csv_other_columns `{Pandas} (path1 path2 : path)
    (text_col label_col : str) (df1 df2 : DataFrame) :
  read_csv path1 = Ok df1 ->
  read_csv path2 = Ok df2 ->
  getitem df1 text_col = getitem df2 text_col ->
  getitem df1 label_col = getitem df2 label_col ->
  load_dataset_csv path1 text_col label_col
  = load_dataset_csv path2 text_col label_col.
Proof.
  intros Hr1 Hr2 Ht Hl.
  assert (Hcol : forall col, getitem df1 col = getitem df2 col ->
                             col ∈ columns df1 <-> col ∈ columns df2).
  { intros col Hc. split; intros Hin.
    - destruct (columns_getitem _ _ Hin) as [s Hs]. rewrite Hc in Hs.
      by eapply getitem_Ok_columns.
    - destruct (columns_getitem _ _ Hin) as [s Hs]. rewrite <- Hc in Hs.
      by eapply getitem_Ok_columns. }
  destruct (decide (text_col ∈ columns df1)) as [Ht1|Ht1].
  2: { rewrite (load_dataset_csv_absent _ _ _ df1 Hr1 (or_introl Ht1)).
       rewrite (load_dataset_csv_absent _ _ _ df2 Hr2); [done|].
       left. by rewrite <- (Hcol _ Ht). }
  destruct (decide (label_col ∈ columns df1)) as [Hl1|Hl1].
  2: { rewrite (load_dataset_csv_absent _ _ _ df1 Hr1 (or_intror Hl1)).
       rewrite (load_dataset_csv_absent _ _ _ df2 Hr2); [done|].
       right. by rewrite <- (Hcol _ Hl). }
  destruct (decide (text_col = label_col)) as [->|Hne].
  { rewrite (load_dataset_csv_same_column _ _ df1 Hr1 Hl1).
    by rewrite (load_dataset_csv_same_column _ _ df2 Hr2 (proj1 (Hcol _ Hl) Hl1)). }
  destruct (columns_getitem df1 text_col Ht1) as [X HX].
  destruct (columns_getitem df1 label_col Hl1) as [y Hy].
  rewrite (load_dataset_csv_present _ _ _ _ _ _ Hr1 HX Hy Hne).
  rewrite HX in Ht. rewrite Hy in Hl.
  by rewrite (load_dataset_csv_present _ _ _ _ _ _ Hr2 (eq_sym Ht) (eq_sym Hl) Hne).
Qed.

Lemma load_dataset_csv_other_columns_source :
  @load_dataset_csv pandas_two_files csv_path (u "text") (u "label")
  = @load_dataset_csv pandas_two_files other_csv_path (u "text") (u "label").
Proof.
  apply (@load_dataset_csv_other_columns pandas_two_files csv_path other_csv_path
           (u "text") (u "label") news_csv news_with_source_csv);
    reflexivity.
Defined.

(** ** Properties of the service *)

Lemma predict_label_labels (pipeline : Pipeline) (texts : list str)
    (threshold : float) (probs : list float) :
  predict_proba pipeline texts = Ok probs ->
  predict_label pipeline texts threshold
  = Ok (map (fun p => if PrimFloat.leb threshold p then 1 else 0) probs).
Proof. intros Hp. unfold predict_label. by rewrite Hp. Qed.

(** X15. The service answers a request with status 400 exactly when
    its batch of texts is empty, whatever the model does on an empty
    batch; no other request is answered with an HTTP error by the
    handler itself. *)
Theorem predict_bad_request (model : Pipeline) (req : PredictRequest) :
  (texts req = [] <->
   predict model req = HTTPException 400 "texts must be non-empty") /\
  (forall status_code detail,
     predict model req = HTTPException status_code detail -> texts req = []).
Proof.
  unfold predict. destruct (texts req) as [|t ts]; [by repeat split|].
  destruct (predict_proba model (t :: ts)) as [probs|e]; [|by repeat split].
  destruct (predict_label model (t :: ts) _) as [labels|e]; by repeat split.
Qed.

(** X16. A response of the service holds the probabilities of
    [predict_proba] on the request's texts and, in parallel, one label
    per probability: 1 when the probability reaches the threshold of
    the request, with 0.5 standing in for a missing or zero threshold,
    and 0 otherwise. *)
Theorem predict_response (model : Pipeline) (req : PredictRequest)
    (resp : PredictResponse) :
  predict model req = Returned resp ->
  texts req <> [] /\
  predict_proba model (texts req) = Ok (probabilities resp) /\
  length (labels resp) = length (probabilities resp) /\
  forall i p, probabilities resp !! i = Some p ->
    labels resp !! i
    = Some (if PrimFloat.leb (float_or (threshold req) 0.5) p then 1 else 0).
Proof.
  unfold predict. destruct (texts req) as [|t ts] eqn:Et; [done|].
  destruct (predict_proba model (t :: ts)) as [probs|e] eqn:Ep; [|done].
  rewrite (predict_label_labels _ _ _ _ Ep). intros [= <-]. simpl.
  repeat split; [done|apply length_map|].
  intros i p Hi. by rewrite list_lookup_fmap, Hi.
Qed.

Lemma predict_response_even :
  [u "breaking  news"] <> [] /\
  predict_proba even_pipeline [u "breaking  news"] = Ok [0.5%float] /\
  length [1] = length [0.5%float] /\
  forall i p, [0.5%float] !! i = Some p ->
    [1] !! i = Some (if PrimFloat.leb (float_or None 0.5) p then 1 else 0).
Proof.
  apply (predict_response even_pipeline
           {| texts := [u "breaking  news"]; threshold := None |}
           {| labels := [1]; probabilities := [0.5%float] |}).
  reflexivity.
Defined.

(** X17. A threshold of zero is not honoured: a request whose
    threshold is 0.0 or -0.0, like one whose threshold is null, is
    answered as a request with the threshold 0.5, so the labels of its
    response are those of [predict_label] at 0.5; every other
    threshold is used as it is: the labels of the response are those
    of [predict_label] at the threshold of the request. *)
Theorem predict_zero_threshold (model : Pipeline) (batch : list str) (t : float) :
  (PrimFloat.eqb t 0 = true ->
   predict model {| texts := batch; threshold := Some t |}
   = predict model {| texts := batch; threshold := Some 0.5%float |}) /\
  predict model {| texts := batch; threshold := None |}
  = predict model {| texts := batch; threshold := Some 0.5%float |} /\
  (PrimFloat.eqb t 0 = false ->
   float_or (Some t) 0.5 = t) /\
  (PrimFloat.eqb t 0 = false ->
   forall resp,
     predict model {| texts := batch; threshold := Some t |} = Returned resp ->
     predict_label model batch t = Ok (labels resp)) /\
  (PrimFloat.eqb t 0 = true ->
   forall resp,
     predict model {| texts := batch; threshold := Some t |} = Returned resp ->
     predict_label model batch 0.5 = Ok (labels resp)).
Proof.
  unfold predict, float_or, float_bool. simpl. split_and!.
  - by intros ->.
  - done.
  - by intros ->.
  - intros -> resp. simpl. destruct batch as [|x batch]; [done|].
    destruct (predict_proba model (x :: batch)); [|done].
    destruct (predict_label model (x :: batch) t); [|done].
    by intros [= <-].
  - intros -> resp. simpl. destruct batch as [|x batch]; [done|].
    destruct (predict_proba model (x :: batch)); [|done].
    destruct (predict_label model (x :: batch) 0.5); [|done].
    by intros [= <-].
Qed.

Lemma predict_zero_threshold_even :
  predict even_pipeline {| texts := [u "a"]; threshold := Some 0%float |}
  = predict even_pipeline {| texts := [u "a"]; threshold := Some 0.5%float |}.
Proof.
  apply (proj1 (predict_zero_threshold even_pipeline [u "a"] 0%float)).
  reflexivity.
Defined.

(** X18. The service serves the saved model: after [save_model]
    returned, [create_app] on the same directory starts, and its
    handler answers every request as the handler of the saved pipeline
    does, provided the serialisation of that pipeline is faithful. *)
Theorem create_app_after_save `{Joblib} (pipeline : Pipeline) (model_dir : path)
    (fs fs' : gmap path node) (model_path : path) :
  faithful pipeline ->
  save_model pipeline model_dir fs = Ok (model_path, fs') ->
  exists app,
    create_app model_dir fs' = Ok app /\
    forall req, app req = predict pipeline req.
Proof.
  intros (loaded & Hload & Hsame) Hsave.
  apply save_model_artifact in Hsave as [-> Hfile].
  exists (predict loaded). split.
  - unfold create_app.
    by rewrite (load_model_artifact _ _ _ Hfile), Hload.
  - intros req. unfold predict, predict_label, predict_proba.
    by rewrite !Hsame.
Qed.

Lemma create_app_after_save_models :
  exists app,
    @create_app even_joblib models
      (<[truediv models (u "model.joblib") := File [Byte.x80; Byte.x04]]>
         (<[models := Dir]> (∅ : gmap path node))) = Ok app /\
    forall req, app req = predict even_pipeline req.
Proof.
  apply (@create_app_after_save even_joblib even_pipeline models ∅ _
           (truediv models (u "model.joblib")) even_pipeline_faithful).
  reflexivity.
Defined.

(** ** Properties of the Gemini detector *)

Lemma length_filter_le {A} (f : A -> bool) (l : list A) :
  (length (List.filter f l) <= length l)%nat.
Proof. induction l as [|x l IH]; simpl; [done|]. destruct (f x); simpl; lia. Qed.

(** X19. The keyword fallback reports at most the twelve indicators,
    each found in the lowered text; its verdict is fake exactly when
    at least three indicators are found, which is exactly when its
    confidence is at least 0.6; the confidence lies between 0 and 0.8
    and reaches 0.8 exactly from four indicators on. *)
Theorem fallback_analysis_verdict `{Gemini} (text response_text : str) :
  exists found,
    red_flags (_fallback_analysis text response_text) = JList (map JStr found) /\
    (forall indicator, indicator ∈ found <->
       indicator ∈ fake_indicators /\ contains (str_lower text) indicator = true) /\
    (length found <= 12)%nat /\
    (is_fake (_fallback_analysis text response_text) = JBool true
     <-> (3 <= length found)%nat) /\
    (PrimFloat.leb 0x1.3333333333333p-1
       (confidence (_fallback_analysis text response_text)) = true
     <-> (3 <= length found)%nat) /\
    PrimFloat.leb 0 (confidence (_fallback_analysis text response_text)) = true /\
    PrimFloat.leb (confidence (_fallback_analysis text response_text))
      0x1.999999999999ap-1 = true /\
    (PrimFloat.eqb (confidence (_fallback_analysis text response_text))
       0x1.999999999999ap-1 = true
     <-> (4 <= length found)%nat) /\
    raw_response (_fallback_analysis text response_text) = response_text.
Proof.
  unfold _fallback_analysis. cbv zeta.
  cbn [red_flags is_fake confidence raw_response].
  set (found := List.filter (fun indicator => contains (str_lower text) indicator)
                            fake_indicators).
  exists found. split; [done|]. split.
  { intros indicator. unfold found.
    rewrite !list_elem_of_In. apply filter_In. }
  assert (Hn : (length found <= 12)%nat) by apply (length_filter_le _ fake_indicators).
  split; [exact Hn|].
  generalize (length found) Hn. clear found Hn. intros n Hn.
  do 13 (destruct n as [|n];
         [vm_compute; repeat split; intros;
          try solve [done | lia | discriminate]|]).
  lia.
Qed.

Section search_facts.

Lemma startswith_app (sub rest : str) : startswith (sub ++ rest) sub = true.
Proof.
  induction sub as [|c sub IH]; simpl; [done|]. by rewrite N.eqb_refl.
Qed.

Lemma find_at_here (s sub : str) (i : nat) :
  startswith s sub = true -> find_at s sub i = Some i.
Proof. intros Hs. destruct s; simpl; by rewrite Hs. Qed.

Lemma startswith_other (c h : N) (s sub : str) :
  c <> h -> startswith (c :: s) (h :: sub) = false.
Proof.
  intros Hne. simpl. destruct (N.eqb_spec h c); [congruence|done].
Qed.

Lemma find_at_skip (pre rest : str) (h : N) (sub : str) (i : nat) :
  h ∉ pre ->
  find_at (pre ++ rest) (h :: sub) i = find_at rest (h :: sub) (i + length pre).
Proof.
  revert i. induction pre as [|c pre IH]; intros i Hno.
  - simpl. by rewrite Nat.add_0_r.
  - change ((c :: pre) ++ rest) with (c :: (pre ++ rest)).
    cbn [find_at]. rewrite startswith_other.
    + rewrite IH; [f_equal; simpl; lia|].
      intros Hin. apply Hno. by apply list_elem_of_further.
    + intros ->. apply Hno. apply list_elem_of_here.
Qed.

Lemma find_at_none (s : str) (h : N) (sub : str) (i : nat) :
  h ∉ s -> find_at s (h :: sub) i = None.
Proof.
  intros Hno. rewrite <- (app_nil_r s), find_at_skip by done. done.
Qed.

Lemma find_at_first (pre : str) (h : N) (sub rest : str) (i : nat) :
  h ∉ pre ->
  find_at (pre ++ (h :: sub) ++ rest) (h :: sub) i = Some (i + length pre)%nat.
Proof.
  intros Hno. rewrite find_at_skip by done.
  apply find_at_here, startswith_app.
Qed.

Lemma rfind_at_none (s : str) (h : N) (i : nat) :
  h ∉ s -> rfind_at s [h] i = None.
Proof.
  revert i. induction s as [|c s IH]; intros i Hno; [done|].
  cbn [rfind_at]. rewrite IH.
  - rewrite startswith_other; [done|].
    intros ->. apply Hno. apply list_elem_of_here.
  - intros Hin. apply Hno. by apply list_elem_of_further.
Qed.

Lemma rfind_at_last (pre post : str) (h : N) (i : nat) :
  h ∉ post ->
  rfind_at (pre ++ h :: post) [h] i = Some (i + length pre)%nat.
Proof.
  intros Hno. revert i. induction pre as [|c pre IH]; intros i.
  - simpl. rewrite rfind_at_none by done. rewrite N.eqb_refl. simpl.
    by rewrite Nat.add_0_r.
  - change ((c :: pre) ++ h :: post) with (c :: (pre ++ h :: post)).
    cbn [rfind_at]. rewrite IH. f_equal. simpl. lia.
Qed.

Lemma slice_middle (a b c : str) :
  slice (a ++ b ++ c) (Z.of_nat (length a)) (Z.of_nat (length a + length b)) = b.
Proof.
  unfold slice, clamp_index. rewrite !length_app.
  destruct (Z.ltb_spec (Z.of_nat (length a)) 0); [lia|].
  destruct (Z.ltb_spec (Z.of_nat (length a + length b)) 0); [lia|].
  rewrite !Z.min_l by lia. rewrite !Nat2Z.id.
  rewrite app_assoc, take_app_length' by (rewrite length_app; lia).
  by rewrite drop_app_length.
Qed.

Lemma slice_to_minus_one (a b : str) :
  slice (a ++ b) (Z.of_nat (length a)) (-1) = removelast b.
Proof.
  unfold slice, clamp_index. rewrite !length_app.
  destruct (Z.ltb_spec (Z.of_nat (length a)) 0); [lia|].
  destruct (Z.ltb_spec (-1) 0); [|lia].
  rewrite Z.min_l by lia. rewrite Nat2Z.id.
  destruct b as [|c b].
  - rewrite app_nil_r. simpl. apply drop_ge. rewrite length_take. lia.
  - replace (Z.to_nat (Z.max 0 (-1 + Z.of_nat (length a + length (c :: b)))))
      with (length a + (length (c :: b) - 1))%nat by (simpl; lia).
    rewrite take_app_add', drop_app_length by done.
    rewrite removelast_firstn_len. f_equal. simpl. lia.
Qed.

Lemma find_at_some (a sub b : str) (i : nat) :
  exists j, find_at (a ++ sub ++ b) sub i = Some j.
Proof.
  revert i. induction a as [|c a IH]; intros i.
  - exists i. simpl app. apply find_at_here. apply (startswith_app sub b).
  - change ((c :: a) ++ sub ++ b) with (c :: (a ++ sub ++ b)). cbn [find_at].
    destruct (startswith _ sub); [by eexists|apply IH].
Qed.

End search_facts.

Section search_results.

Lemma find_first (pre : str) (h : N) (sub rest : str) :
  h ∉ pre ->
  find (pre ++ (h :: sub) ++ rest) (h :: sub) = Z.of_nat (length pre) /\
  contains (pre ++ (h :: sub) ++ rest) (h :: sub) = true.
Proof.
  intros Hno. unfold find, contains. by rewrite find_at_first.
Qed.

Lemma clamp_index_length (a b : str) :
  Z.to_nat (clamp_index (Z.of_nat (length (a ++ b))) (Z.of_nat (length a)))
  = length a.
Proof.
  unfold clamp_index. rewrite length_app.
  destruct (Z.ltb_spec (Z.of_nat (length a)) 0); lia.
Qed.

Lemma find_from_first (a body : str) (h : N) (sub rest : str) :
  h ∉ body ->
  find_from (a ++ body ++ (h :: sub) ++ rest) (h :: sub) (Z.of_nat (length a))
  = Z.of_nat (length a + length body).
Proof.
  intros Hno. unfold find_from. cbv zeta.
  rewrite clamp_index_length, drop_app_length.
  by rewrite find_at_first.
Qed.

Lemma find_from_none (a body : str) (h : N) (sub : str) :
  h ∉ body ->
  find_from (a ++ body) (h :: sub) (Z.of_nat (length a)) = -1.
Proof.
  intros Hno. unfold find_from. cbv zeta.
  rewrite clamp_index_length, drop_app_length.
  by rewrite find_at_none.
Qed.

Lemma rfind_last (pre post : str) (h : N) :
  h ∉ post -> rfind (pre ++ h :: post) [h] = Z.of_nat (length pre).
Proof. intros Hno. unfold rfind. by rewrite rfind_at_last. Qed.

End search_results.

Section extraction.
Context `{Gemini}.

Lemma extract_fenced (pre body post : str) :
  96%N ∉ pre -> 96%N ∉ body ->
  extract_json_text (pre ++ u "```json" ++ body ++ u "```" ++ post)
  = Some (strip body).
Proof.
  intros Hpre Hbody. unfold extract_json_text.
  destruct (find_first pre 96%N (u "``json") (body ++ u "```" ++ post) Hpre)
    as [Hfind Hin].
  change (96%N :: u "``json") with (u "```json") in *.
  rewrite Hin, Hfind. cbv zeta.
  replace (Z.of_nat (length pre) + 7)
    with (Z.of_nat (length (pre ++ u "```json")))
    by (rewrite length_app; simpl; lia).
  rewrite (app_assoc pre).
  change (u "```") with (96%N :: u "``") at 1 2.
  rewrite find_from_first by done.
  change (96%N :: u "``") with (u "```").
  by rewrite slice_middle.
Qed.

Lemma contains_intro (a sub b : str) : contains (a ++ sub ++ b) sub = true.
Proof. unfold contains. by destruct (find_at_some a sub b 0) as [j ->]. Qed.

End extraction.

(** X20. When the stripped response holds a fence [```json], a body
    and a closing fence, with no backquote before the fence or in the
    body, the JSON text read from it is the body without the
    whitespace around it. *)
Theorem extract_json_text_fenced (pre body post : str) :
  96%N ∉ pre -> 96%N ∉ body ->
  extract_json_text (pre ++ u "```json" ++ body ++ u "```" ++ post)
  = Some (strip body).
Proof. apply extract_fenced. Qed.

Lemma extract_json_text_fenced_sample :
  extract_json_text
    (u "Here: " ++ u "```json" ++ u " {} " ++ u "```" ++ u " done")
  = Some (strip (u " {} ")).
Proof.
  apply (extract_json_text_fenced (u "Here: ") (u " {} ") (u " done"));
    apply (bool_decide_unpack _); vm_compute; exact I.
Defined.

(** X21. When the fence [```json] is never closed, the JSON text read
    from the response is the body without its last character (and
    without the whitespace around the rest): the slice ends at the
    index -1 that [find] returns. *)
Theorem extract_json_text_unclosed (pre body : str) :
  96%N ∉ pre -> 96%N ∉ body ->
  extract_json_text (pre ++ u "```json" ++ body)
  = Some (strip (removelast body)).
Proof.
  intros Hpre Hbody. unfold extract_json_text.
  destruct (find_first pre 96%N (u "``json") body Hpre) as [Hfind Hin].
  change (96%N :: u "``json") with (u "```json") in *.
  rewrite Hin, Hfind. cbv zeta.
  replace (Z.of_nat (length pre) + 7)
    with (Z.of_nat (length (pre ++ u "```json")))
    by (rewrite length_app; simpl; lia).
  rewrite (app_assoc pre).
  change (u "```") with (96%N :: u "``").
  rewrite find_from_none by done.
  by rewrite slice_to_minus_one.
Qed.

Lemma extract_json_text_unclosed_sample :
  extract_json_text (u "x " ++ u "```json" ++ u " {}")
  = Some (strip (removelast (u " {}"))).
Proof.
  apply (extract_json_text_unclosed (u "x ") (u " {}"));
    apply (bool_decide_unpack _); vm_compute; exact I.
Defined.

(** X22. When the stripped response holds no fence [```json] but an
    opening and a closing brace, the JSON text read from it runs from
    the first opening brace to the last closing brace. *)
Theorem extract_json_text_braces (pre mid post : str) :
  contains (pre ++ [123%N] ++ mid ++ [125%N] ++ post) (u "```json") = false ->
  123%N ∉ pre -> 125%N ∉ post ->
  extract_json_text (pre ++ [123%N] ++ mid ++ [125%N] ++ post)
  = Some ([123%N] ++ mid ++ [125%N]).
Proof.
  intros Hfence Hpre Hpost. unfold extract_json_text. rewrite Hfence.
  destruct (find_first pre 123%N [] (mid ++ [125%N] ++ post) Hpre) as [Hfind Hin].
  change (u "{") with [123%N]. change (u "}") with [125%N].
  rewrite Hin, Hfind.
  assert (Hclose : contains (pre ++ [123%N] ++ mid ++ [125%N] ++ post) [125%N]
                   = true).
  { rewrite !app_assoc, <- (app_assoc _ [125%N]). apply contains_intro. }
  rewrite Hclose. cbv zeta. simpl andb. cbv iota.
  assert (Hs : pre ++ [123%N] ++ mid ++ [125%N] ++ post
               = (pre ++ [123%N] ++ mid) ++ 125%N :: post)
    by (rewrite <- ?app_assoc; reflexivity).
  assert (Hlast : rfind (pre ++ [123%N] ++ mid ++ [125%N] ++ post) [125%N]
                  = Z.of_nat (length (pre ++ [123%N] ++ mid)))
    by (rewrite Hs; by apply rfind_last).
  rewrite Hlast.
  replace (Z.of_nat (length (pre ++ [123%N] ++ mid)) + 1)
    with (Z.of_nat (length pre + length ([123%N] ++ mid ++ [125%N])))
    by (rewrite !length_app; simpl; lia).
  assert (Hm : pre ++ [123%N] ++ mid ++ [125%N] ++ post
               = pre ++ ([123%N] ++ mid ++ [125%N]) ++ post)
    by (rewrite <- ?app_assoc; reflexivity).
  rewrite Hm. f_equal. apply slice_middle.
Qed.

Lemma extract_json_text_braces_sample :
  extract_json_text
    (u "say " ++ u "{" ++ u "a} and {b" ++ u "}" ++ u " ok")
  = Some (u "{" ++ u "a} and {b" ++ u "}").
Proof.
  apply (extract_json_text_braces (u "say ") (u "a} and {b") (u " ok"));
    solve [reflexivity | apply (bool_decide_unpack _); vm_compute; exact I].
Defined.



(** X24. A well-formed answer is passed on: when the stripped
    response holds a fenced body that [json.loads] reads as an object
    whose confidence is a float, the detection carries the is_fake
    value and the confidence of that object, and the stripped response
    as raw response. *)
Theorem detect_fake_news_fenced_reply `{Gemini} (config : GeminiConfig)
    (text response_text pre body post : str) (result : list (str * json))
    (c : float) :
  generate_content config (_create_prompt text) = Text response_text ->
  strip response_text = pre ++ u "```json" ++ body ++ u "```" ++ post ->
  96%N ∉ pre -> 96%N ∉ body ->
  json_loads (strip body) = Some (JDict result) ->
  dict_get_json result (u "confidence") (JFloat 0.5) = JFloat c ->
  is_fake (detect_fake_news config text)
  = dict_get_json result (u "is_fake") (JBool false) /\
  confidence (detect_fake_news config text) = c /\
  raw_response (detect_fake_news config text) = strip response_text.
Proof.
  intros Hcall Hshape Hpre Hbody Hload Hconf.
  unfold detect_fake_news. cbv zeta. rewrite Hcall, Hshape.
  rewrite (extract_fenced pre body post Hpre Hbody).
  unfold read_json_text. rewrite Hload, Hconf. by cbn.
Qed.

Lemma detect_fake_news_fenced_reply_sample :
  is_fake (@detect_fake_news
             (scripted (Text (quoted " ```json{@is_fake@: true, @confidence@: 0.9}``` ")))
             (default_config (u "key")) (u "hello"))
  = dict_get_json [(u "is_fake", JBool true);
                   (u "confidence", JFloat 0x1.ccccccccccccdp-1)]
      (u "is_fake") (JBool false) /\
  confidence (@detect_fake_news
                (scripted (Text (quoted " ```json{@is_fake@: true, @confidence@: 0.9}``` ")))
                (default_config (u "key")) (u "hello"))
  = 0x1.ccccccccccccdp-1%float /\
  raw_response (@detect_fake_news
                  (scripted (Text (quoted " ```json{@is_fake@: true, @confidence@: 0.9}``` ")))
                  (default_config (u "key")) (u "hello"))
  = strip (quoted " ```json{@is_fake@: true, @confidence@: 0.9}``` ").
Proof.
  apply (@detect_fake_news_fenced_reply
           (scripted (Text (quoted " ```json{@is_fake@: true, @confidence@: 0.9}``` ")))
           (default_config (u "key")) (u "hello")
           (quoted " ```json{@is_fake@: true, @confidence@: 0.9}``` ")
           [] (quoted "{@is_fake@: true, @confidence@: 0.9}") []
           [(u "is_fake", JBool true);
            (u "confidence", JFloat 0x1.ccccccccccccdp-1)]);
    solve [reflexivity | apply (bool_decide_unpack _); vm_compute; exact I].
Defined.

(** X25. The batch function fails, before any call of the model,
    exactly when no key is passed and the environment variable is
    unset or empty; a key that is passed is used as it is, even when it
    is empty. When it returns, it returns one detection per text, in
    the order of the texts, each one the detection that
    [predict_single_gemini] returns for that text. *)
Theorem predict_fake_news_gemini_batch `{Gemini} (getenv : option str)
    (batch : list str) (key : option str) :
  (raised (predict_fake_news_gemini getenv batch key)
   <-> key = None /\ (getenv = None \/ getenv = Some [])) /\
  (forall results,
     predict_fake_news_gemini getenv batch key = Ok results ->
     length results = length batch /\
     forall i text, batch !! i = Some text ->
       exists detection,
         results !! i = Some detection /\
         predict_single_gemini getenv text key = Ok detection).
Proof.
  unfold raised, predict_fake_news_gemini, predict_single_gemini,
    create_gemini_detector.
  split; [split|].
  - intros [e He]. destruct key as [k|]; [done|]. split; [done|].
    destruct getenv as [[|c k]|]; [by right|done|by left].
  - intros [-> [->| ->]]; by eexists.
  - intros results Hr.
    assert (Hcfg : exists config,
      match key with
      | Some k => Ok (default_config k)
      | None =>
          match getenv with
          | Some (c :: k) => Ok (default_config (c :: k))
          | _ => Err (ValueError (OtherValueError
                   "Gemini API key not provided. Set GEMINI_API_KEY environment variable or pass api_key parameter."))
          end
      end = Ok config).
    { destruct key as [k|]; [by eexists|].
      destruct getenv as [[|c k]|]; simpl in Hr;
        solve [discriminate Hr | by eexists]. }
    destruct Hcfg as [config Hcfg]. rewrite Hcfg in *. simpl in *.
    injection Hr as <-. unfold batch_detect. split; [apply length_map|].
    intros i text Hi. exists (detect_fake_news config text).
    by rewrite list_lookup_fmap, Hi.
Qed.

(** ** Properties of the enhanced service *)

Lemma mapM_lookup {A B} (f : A -> result B) (l : list A) (k : list B) :
  mapM f l = Ok k ->
  forall i y, k !! i = Some y -> exists x, l !! i = Some x /\ f x = Ok y.
Proof.
  revert k. induction l as [|x l IH]; intros k; simpl.
  - intros [= <-] i y Hi. by destruct i.
  - destruct (f x) as [b|e] eqn:Ef; [|done]. rewrite bind_Ok.
    destruct (mapM f l) as [k'|e]; [|done]. intros [= <-] [|i] y Hi.
    + injection Hi as <-. by exists x.
    + exact (IH k' eq_refl i y Hi).
Qed.

Lemma count_partition {A} (p q r : A -> bool) (l : list A) :
  Forall (fun x => (p x && negb (q x) && negb (r x))
                   || (negb (p x) && q x && negb (r x))
                   || (negb (p x) && negb (q x) && r x) = true) l ->
  service_gemini.count p l + service_gemini.count q l
  + service_gemini.count r l = Z.of_nat (length l).
Proof.
  unfold service_gemini.count. induction 1 as [|x l Hx _ IH]; simpl; [done|].
  destruct (p x), (q x), (r x); simpl in *; try done; lia.
Qed.

Lemma compare_text_agreement `{Gemini} (model : Pipeline) (getenv : option str)
    (key t : str) (r : service_gemini.Comparison) :
  service_gemini.compare_text model getenv key t = Ok r ->
  service_gemini.agreement r
  = match service_gemini.gemini_label r with
    | Some label => Some (service_gemini.traditional_label r =? label)
    | None => None
    end.
Proof.
  unfold service_gemini.compare_text.
  destruct (predict_proba model [t]) as [[|p probs]|e]; [done| |done].
  simpl. destruct (predict_single_gemini getenv t (Some key)); by intros [= <-].
Qed.

(** X26. When the comparison handler returns, it returns one entry per
    text of the request, and its summary adds up: every entry is
    counted once, as an agreement, a disagreement or an error, so the
    three counts sum to the number of texts. *)
Theorem predict_compare_summary `{Gemini} (traditional_model : option Pipeline)
    (getenv : option str) (req : service_gemini.GeminiPredictRequest)
    (resp : service_gemini.CompareResponse) :
  service_gemini.predict_compare traditional_model getenv req = Returned resp ->
  service_gemini.texts req <> [] /\
  length (service_gemini.results resp) = length (service_gemini.texts req) /\
  service_gemini.total_texts (service_gemini.summary resp)
  = Z.of_nat (length (service_gemini.results resp)) /\
  service_gemini.agreements (service_gemini.summary resp)
  + service_gemini.disagreements (service_gemini.summary resp)
  + service_gemini.errors (service_gemini.summary resp)
  = service_gemini.total_texts (service_gemini.summary resp).
Proof.
  unfold service_gemini.predict_compare.
  destruct (service_gemini.texts req) as [|t ts] eqn:Et; [done|].
  destruct (service_gemini.str_or _ getenv) as [[|c key]|]; [done| |done].
  destruct traditional_model as [model|]; [|done].
  destruct (mapM _ (t :: ts)) as [results|e] eqn:Em; [|done].
  intros [= <-]. cbn [service_gemini.results service_gemini.summary
    service_gemini.total_texts service_gemini.agreements
    service_gemini.disagreements service_gemini.errors].
  pose proof (mapM_length _ _ _ Em) as Hlen.
  repeat split; [done|by rewrite Hlen|by rewrite Hlen|].
  transitivity (Z.of_nat (length results)); [|by rewrite Hlen].
  apply count_partition, Forall_lookup_2.
  intros i r Hi. destruct (mapM_lookup _ _ _ Em i r Hi) as (x & _ & Hx).
  rewrite (compare_text_agreement _ _ _ _ _ Hx).
  destruct (service_gemini.gemini_label r) as [label|]; [|done].
  destruct (service_gemini.traditional_label r =? label); done.
Qed.

Lemma predict_compare_summary_sample :
  exists resp,
    @service_gemini.predict_compare (scripted (Text (u "no verdict")))
      (Some even_pipeline) None
      {| service_gemini.texts := [u "shocking"; u "calm"];
         service_gemini.gemini_api_key := Some (u "key") |} = Returned resp /\
    ([u "shocking"; u "calm"] <> [] /\
     length (service_gemini.results resp) = length [u "shocking"; u "calm"] /\
     service_gemini.total_texts (service_gemini.summary resp)
     = Z.of_nat (length (service_gemini.results resp)) /\
     service_gemini.agreements (service_gemini.summary resp)
     + service_gemini.disagreements (service_gemini.summary resp)
     + service_gemini.errors (service_gemini.summary resp)
     = service_gemini.total_texts (service_gemini.summary resp)).
Proof.
  eexists. split; [vm_compute; reflexivity|].
  apply (@predict_compare_summary (scripted (Text (u "no verdict")))
           (Some even_pipeline) None
           {| service_gemini.texts := [u "shocking"; u "calm"];
              service_gemini.gemini_api_key := Some (u "key") |}).
  vm_compute. reflexivity.
Defined.

Lemma compare_text_entry `{Gemini} (model : Pipeline) (getenv : option str)
    (key t : str) (r : service_gemini.Comparison) :
  service_gemini.compare_text model getenv key t = Ok r ->
  exists p rest,
    predict_proba model [t] = Ok (p :: rest) /\
    service_gemini.traditional_probability r = p /\
    service_gemini.traditional_label r
    = (if PrimFloat.leb 0.5 p then 1 else 0) /\
    service_gemini.text r
    = if (100 <? length t)%nat then take 100 t ++ u "..." else t.
Proof.
  unfold service_gemini.compare_text.
  destruct (predict_proba model [t]) as [[|p probs]|e]; [done| |done].
  rewrite !bind_Ok.
  destruct (predict_single_gemini getenv t (Some key));
    intros [= <-]; by exists p, probs.
Qed.

Lemma truncated_text (t : str) :
  take 100 (if (100 <? length t)%nat then take 100 t ++ u "..." else t)
  = take 100 t /\
  (length (if (100 <? length t)%nat then take 100 t ++ u "..." else t)
   <= 103)%nat /\
  ((length t <= 100)%nat ->
   (if (100 <? length t)%nat then take 100 t ++ u "..." else t) = t).
Proof.
  destruct (Nat.ltb_spec 100 (length t)) as [Hlong|Hshort].
  - repeat split.
    + rewrite take_app_le by (rewrite length_take; lia).
      by rewrite take_take, Nat.min_id.
    + rewrite length_app, length_take.
      change (length (u "...")) with 3%nat. lia.
    + lia.
  - repeat split; lia.
Qed.

(** X27. Every entry of a comparison belongs to the text at the same
    place of the request: its probability and its label are those of
    [predict_proba] and of [predict_label] at the threshold 0.5 on that
    text alone, its text is the first 100 characters of the text,
    followed by three dots when the text is longer and by nothing
    otherwise, and it is an agreement exactly when the Gemini label is
    the traditional one. *)
Theorem predict_compare_entry `{Gemini} (model : Pipeline) (getenv : option str)
    (req : service_gemini.GeminiPredictRequest)
    (resp : service_gemini.CompareResponse) (i : nat)
    (r : service_gemini.Comparison) :
  service_gemini.predict_compare (Some model) getenv req = Returned resp ->
  service_gemini.results resp !! i = Some r ->
  exists t,
    service_gemini.texts req !! i = Some t /\
    (exists rest, predict_proba model [t]
                  = Ok (service_gemini.traditional_probability r :: rest)) /\
    (exists rest, predict_label model [t] 0.5
                  = Ok (service_gemini.traditional_label r :: rest)) /\
    take 100 (service_gemini.text r) = take 100 t /\
    (length (service_gemini.text r) <= 103)%nat /\
    ((length t <= 100)%nat -> service_gemini.text r = t) /\
    ((100 < length t)%nat ->
     service_gemini.text r = take 100 t ++ u "...") /\
    (service_gemini.agreement r = Some true
     <-> service_gemini.gemini_label r
         = Some (service_gemini.traditional_label r)).
Proof.
  unfold service_gemini.predict_compare.
  destruct (service_gemini.texts req) as [|t0 ts] eqn:Et; [done|].
  destruct (service_gemini.str_or _ getenv) as [[|c key]|]; [done| |done].
  destruct (mapM _ (t0 :: ts)) as [results|e] eqn:Em; [|done].
  intros [= <-] Hi. cbn [service_gemini.results] in Hi.
  destruct (mapM_lookup _ _ _ Em i r Hi) as (t & Ht & Hr).
  exists t. split; [done|].
  pose proof (compare_text_agreement _ _ _ _ _ Hr) as Hagree.
  destruct (compare_text_entry _ _ _ _ _ Hr) as (p & rest & Hp & Hprob & Hlabel & Htext).
  destruct (truncated_text t) as (Htake & Hlen & Hshort).
  rewrite Htext, Hprob, Hlabel, Hagree.
  split; [by exists rest|].
  split; [exists (map (fun q => if PrimFloat.leb 0.5 q then 1 else 0) rest);
          by rewrite (predict_label_labels _ _ _ _ Hp)|].
  split; [done|]. split; [done|]. split; [done|].
  split; [intros Hlong; by rewrite (proj2 (Nat.ltb_lt _ _) Hlong)|].
  rewrite <- Hlabel.
  destruct (service_gemini.gemini_label r) as [label|]; [|done].
  split.
  - intros [= Hq]. apply Z.eqb_eq in Hq. by rewrite Hq.
  - intros [= <-]. by rewrite Z.eqb_refl.
Qed.

Lemma predict_compare_entry_sample :
  exists resp r,
    @service_gemini.predict_compare (scripted (Text (u "no verdict")))
      (Some even_pipeline) None
      {| service_gemini.texts := [u "shocking"; u "calm"];
         service_gemini.gemini_api_key := Some (u "key") |} = Returned resp /\
    service_gemini.results resp !! 1%nat = Some r /\
    exists t,
      [u "shocking"; u "calm"] !! 1%nat = Some t /\
      (exists rest, predict_proba even_pipeline [t]
                    = Ok (service_gemini.traditional_probability r :: rest)) /\
      (exists rest, predict_label even_pipeline [t] 0.5
                    = Ok (service_gemini.traditional_label r :: rest)) /\
      take 100 (service_gemini.text r) = take 100 t /\
      (length (service_gemini.text r) <= 103)%nat /\
      ((length t <= 100)%nat -> service_gemini.text r = t) /\
    ((100 < length t)%nat ->
     service_gemini.text r = take 100 t ++ u "...") /\
      (service_gemini.agreement r = Some true
       <-> service_gemini.gemini_label r
           = Some (service_gemini.traditional_label r)).
Proof.
  eexists. eexists. split; [vm_compute; reflexivity|].
  split; [vm_compute; reflexivity|].
  eapply (@predict_compare_entry (scripted (Text (u "no verdict")))
           even_pipeline None
           {| service_gemini.texts := [u "shocking"; u "calm"];
              service_gemini.gemini_api_key := Some (u "key") |} _ 1%nat).
  - vm_compute. reflexivity.
  - vm_compute. reflexivity.
Defined.

Lemma predict_compare_needs_model `{Gemini} (getenv : option str)
    (req : service_gemini.GeminiPredictRequest)
    (resp : service_gemini.CompareResponse) :
  service_gemini.predict_compare None getenv req <> Returned resp.
Proof.
  unfold service_gemini.predict_compare.
  destruct (service_gemini.texts req); [done|].
  by destruct (service_gemini.str_or _ getenv) as [[|c key]|].
Qed.

(** X28. The enhanced application starts without a model: where
    [create_app] raises FileNotFoundError, that is exactly when nothing
    exists at the artifact path, [create_enhanced_app] returns an
    application with no model loaded, whose [/predict] answers 503 to
    every request and whose [/predict/compare] never returns. With a
    model it serves the model that [create_app] serves, and every
    other failure of loading stops both. *)
Theorem create_enhanced_app_without_model `{Joblib} `{Gemini} (model_dir : path)
    (fs : gmap path node) :
  (fs !! truediv model_dir (u "model.joblib") = None
   <-> service_gemini.create_enhanced_app model_dir fs = Ok None) /\
  (fs !! truediv model_dir (u "model.joblib") = None
   <-> exists p, create_app model_dir fs = Err (FileNotFoundError p)) /\
  (forall model,
     service_gemini.create_enhanced_app model_dir fs = Ok (Some model) ->
     create_app model_dir fs = Ok (predict model)) /\
  (forall e,
     service_gemini.create_enhanced_app model_dir fs = Err e ->
     create_app model_dir fs = Err e) /\
  (forall req,
     service_gemini.predict None req
     = HTTPException 503 "Traditional model not loaded") /\
  (forall getenv req resp,
     service_gemini.predict_compare None getenv req <> Returned resp).
Proof.
  unfold service_gemini.create_enhanced_app, create_app, load_model, exists_,
    joblib_load.
  destruct (fs !! truediv model_dir (u "model.joblib")) as [[|content]|] eqn:E;
    [rewrite bool_decide_eq_true_2 by eauto
    |rewrite bool_decide_eq_true_2 by eauto; destruct (deserialize content)
    |rewrite bool_decide_eq_false_2 by (by intros [? ?])];
    simpl; split_and!;
    solve [ done
          | apply predict_compare_needs_model
          | by intros model [= <-]
          | by intros e [= <-]
          | split; [done|by intros [? [=]]]
          | split; [|done]; intros _; by eexists ].
Qed.

(** X29. With a model loaded, the enhanced [/predict] answers as the
    [/predict] of the basic service for every threshold that is not
    zero: the same labels and probabilities, the same status 400 on an
    empty batch, the same exception of the pipeline. *)
Theorem enhanced_predict_as_basic (model : Pipeline) (batch : list str)
    (t : float) (kind : str) (key : option str) :
  PrimFloat.eqb t 0 = false ->
  match service_gemini.predict (Some model)
          {| service_gemini.texts' := batch; service_gemini.threshold := t;
             service_gemini.model_type := kind;
             service_gemini.gemini_api_key' := key |},
        predict model {| texts := batch; threshold := Some t |} with
  | Returned enhanced, Returned basic =>
      service_gemini.labels enhanced = labels basic /\
      service_gemini.probabilities enhanced = probabilities basic
  | HTTPException status_code detail, HTTPException status_code' detail' =>
      status_code = status_code' /\ detail = detail'
  | Escaped e, Escaped e' => e = e'
  | _, _ => False
  end.
Proof.
  intros Ht. unfold service_gemini.predict, predict, float_or, float_bool.
  cbn [service_gemini.texts' service_gemini.threshold texts threshold].
  rewrite Ht. cbn [negb].
  destruct batch as [|x batch]; [done|].
  destruct (predict_proba model (x :: batch)) as [probs|e] eqn:Ep; [|done].
  rewrite (predict_label_labels _ _ _ _ Ep). done.
Qed.

Lemma enhanced_predict_as_basic_sample :
  match service_gemini.predict (Some even_pipeline)
          {| service_gemini.texts' := [u "a"];
             service_gemini.threshold := 0.25%float;
             service_gemini.model_type := u "traditional";
             service_gemini.gemini_api_key' := None |},
        predict even_pipeline {| texts := [u "a"]; threshold := Some 0.25%float |} with
  | Returned enhanced, Returned basic =>
      service_gemini.labels enhanced = labels basic /\
      service_gemini.probabilities enhanced = probabilities basic
  | HTTPException status_code detail, HTTPException status_code' detail' =>
      status_code = status_code' /\ detail = detail'
  | Escaped e, Escaped e' => e = e'
  | _, _ => False
  end.
Proof.
  apply (enhanced_predict_as_basic even_pipeline [u "a"] 0.25%float
           (u "traditional") None).
  reflexivity.
Defined.
